(** * Clipthing: the activation-maximization engine and the layer directory

    A shallow embedding of [feature_visualizer.py] and [layer_inspector.py].

    Conventions of the embedding.
    - Python exceptions are values of [exn]; a call that may raise returns
      [result].
    - Floating point tensors are idealised as lists of rationals ([Q]) with a
      shape and PyTorch's [requires_grad] flag, and the arithmetic of the
      optimization loop is exact.  The final conversion to bytes, where the
      last bit of a product decides on which side of an integer it falls, is
      computed as the code computes it, with every operation rounded to
      binary32.  Non-finite values are outside the embedding.
    - The network is an object graph ([pyobj]) addressed by attribute names;
      what PyTorch itself computes (random sampling, the forward evaluation of
      the visual tower, reverse-mode differentiation, the Adam update) is
      supplied through the [Torch] interface. *)

From Stdlib Require Import ZArith QArith Qabs Qround Qpower Lia Lqa.
From Stdlib Require Import Ascii String DecimalString DecimalNat.
From stdpp Require Import gmap strings list sorting.

Local Open Scope Z_scope.

(** ** Exceptions *)

Inductive exn : Type :=
| ValueError (msg : string)
| RuntimeError (msg : string)
| IndexError
| AttributeError
| TypeError
| ZeroDivisionError
| ForwardError (code : nat)      (* raised inside [self.model.visual(...)] *)
| CallbackError (code : nat).    (* raised inside [progress_callback(...)] *)

Inductive result (A : Type) : Type :=
| Ok (a : A)
| Raise (e : exn).

Arguments Ok {A} a.
Arguments Raise {A} e.

Definition bind {A B : Type} (r : result A) (k : A -> result B) : result B :=
  match r with
  | Ok a => k a
  | Raise e => Raise e
  end.

Notation "x <- r ;; k" := (bind r (fun x => k))
  (at level 100, r at next level, right associativity).

(** What PyTorch raises when a Python integer does not fit the 64-bit
    integer it is unpacked into (a [RuntimeError] with the message "Overflow
    when unpacking long" in older releases). *)
Definition overflow_error : exn := ValueError "Overflow when unpacking long long".

(** ** Tensors *)

Record Tensor : Type := mkTensor {
  shape : list nat;
  data : list Q;
  requires_grad : bool
}.

Definition numel (s : list nat) : nat := fold_right Nat.mul 1%nat s.

Definition Qsum (l : list Q) : Q := fold_right Qplus 0%Q l.

(** [torch.mean] over a list of values (an empty list gives 0 here, where
    PyTorch gives a non-finite value). *)
Definition Qmean (l : list Q) : Q :=
  (Qsum l / inject_Z (Z.of_nat (length l)))%Q.

Definition at_ (d : list Q) (k : nat) : Q := nth k d 0%Q.

(** [torch.tensor(0.0)]: a fresh leaf that does not require grad. *)
Definition torch_tensor (v : Q) : Tensor := mkTensor [] [v] false.

(** [t.mean()] *)
Definition tensor_mean (t : Tensor) : Tensor :=
  mkTensor [] [Qmean (data t)] (requires_grad t).

(** [-t] *)
Definition tensor_neg (t : Tensor) : Tensor :=
  mkTensor (shape t) (map Qopp (data t)) (requires_grad t).

(** [t.item()] *)
Definition item (t : Tensor) : Q := at_ (data t) 0.

(** Python indexing of an axis of size [size] with an integer [i]:
    negative indices count from the end, anything else out of range raises. *)
Definition py_index (size : nat) (i : Z) : result nat :=
  if (0 <=? i) && (i <? Z.of_nat size) then Ok (Z.to_nat i)
  else if (i <? 0) && (- Z.of_nat size <=? i) then Ok (Z.to_nat (i + Z.of_nat size))
  else Raise IndexError.

(** What indexing a tensor raises for an integer outside the axis: PyTorch
    unpacks the index into a 64-bit integer first, and raises its overflow
    error for an integer that does not fit. *)
Definition index_error (i : Z) : exn :=
  if (- 2 ^ 63 <=? i) && (i <? 2 ^ 63) then IndexError else overflow_error.

(** Indexing an axis of a tensor: as [py_index], with the exception of
    [index_error].  (Axis sizes are below [2^63], so an integer that does
    not fit 64 bits is never in range.) *)
Definition tensor_index (size : nat) (i : Z) : result nat :=
  match py_index size i with
  | Ok k => Ok k
  | Raise _ => Raise (index_error i)
  end.

(** [t[:, i]] (and [t[:, i, :, :]]): select index [i] of axis 1. *)
Definition select_dim1 (t : Tensor) (i : Z) : result Tensor :=
  match shape t with
  | b :: c :: rest =>
      k <- tensor_index c i ;;
      let inner := numel rest in
      Ok (mkTensor (b :: rest)
            (flat_map (fun n =>
               map (fun r => at_ (data t) (n * c * inner + k * inner + r))
                   (seq 0 inner)) (seq 0 b))
            (requires_grad t))
  | _ => Raise IndexError
  end.

(** [t.mean(dim=1)] *)
Definition mean_dim1 (t : Tensor) : result Tensor :=
  match shape t with
  | b :: c :: rest =>
      let inner := numel rest in
      Ok (mkTensor (b :: rest)
            (flat_map (fun n =>
               map (fun r =>
                      Qmean (map (fun k => at_ (data t) (n * c * inner + k * inner + r))
                                 (seq 0 c)))
                   (seq 0 inner)) (seq 0 b))
            (requires_grad t))
  | _ => Raise IndexError
  end.

(** ** NeuronActivationHook *)

(** What a forward hook can be handed as [output]: a tensor, or some other
    Python value (a tuple, for instance) that has no [shape]. *)
Inductive pyvalue : Type :=
| PyTensor (t : Tensor)
| PyOther.

Record NeuronActivationHook : Type := mkHook {
  neuron_index : option Z;
  activation : option pyvalue
}.

(** [NeuronActivationHook.__init__] *)
Definition NeuronActivationHook_init (neuron_index : option Z) : NeuronActivationHook :=
  mkHook neuron_index None.

(** [NeuronActivationHook.__call__] *)
Definition hook_call (h : NeuronActivationHook) (output : pyvalue) : NeuronActivationHook :=
  mkHook (neuron_index h) (Some output).

(** [NeuronActivationHook.get_activation_value] *)
Definition get_activation_value (h : NeuronActivationHook) : result Tensor :=
  match activation h with
  | None => Ok (torch_tensor 0)
  | Some PyOther => Raise AttributeError
  | Some (PyTensor t) =>
      a <- (if (length (shape t) =? 4)%nat then
              match neuron_index h with
              | Some i => select_dim1 t i
              | None => mean_dim1 t
              end
            else if (length (shape t) =? 2)%nat then
              match neuron_index h with
              | Some i => select_dim1 t i
              | None => mean_dim1 t
              end
            else Ok t) ;;
      Ok (tensor_mean a)
  end.

(** ** The network as an object graph

    [hasattr]/[getattr] see every attribute of an object; [attrs] lists them
    by name.  A sub-module registered under a name is an attribute of kind
    [KModule]; parameters, integers ([out_features], ...), [None] and anything
    else (methods, strings) are attributes too. *)

Inductive layer_class : Type :=
| Linear        (* isinstance(layer, nn.Linear) *)
| Conv2d        (* isinstance(layer, nn.Conv2d) *)
| OtherModule.

Inductive pykind : Type :=
| KModule (id : nat) (cls : layer_class) (training : bool)
| KParam (pshape : list nat) (prequires_grad : bool) (device : string)
| KInt (z : Z)
| KNone
| KOther.

#[warnings="-register-all"] Inductive pyobj : Type :=
| Obj (kind : pykind) (attrs : list (string * pyobj)).

(** an integer attribute value *)
Definition int_obj (z : Z) : pyobj := Obj (KInt z) [].

Definition kind_of (o : pyobj) : pykind := match o with Obj k _ => k end.
Definition attrs_of (o : pyobj) : list (string * pyobj) := match o with Obj _ a => a end.

Fixpoint lookup_attr (name : string) (l : list (string * pyobj)) : option pyobj :=
  match l with
  | [] => None
  | (n, o) :: rest => if String.eqb n name then Some o else lookup_attr name rest
  end.

(** [getattr(o, name)] when [hasattr(o, name)], [None] otherwise. *)
Definition getattr (o : pyobj) (name : string) : option pyobj :=
  lookup_attr name (attrs_of o).

Definition hasattr (o : pyobj) (name : string) : bool :=
  match getattr o name with Some _ => true | None => false end.

(** [s.split('.')] *)
Fixpoint split_dot (s : string) : list string :=
  match s with
  | EmptyString => [EmptyString]
  | String c s' =>
      if Ascii.eqb c "."%char then EmptyString :: split_dot s'
      else match split_dot s' with
           | [] => [String c EmptyString]
           | h :: t => String c h :: t
           end
  end.

(** The loop of [_get_layer_by_name]. *)
Fixpoint resolve_parts (parts : list string) (module : pyobj) : option pyobj :=
  match parts with
  | [] => Some module
  | part :: rest =>
      match getattr module part with
      | Some m => resolve_parts rest m
      | None => None
      end
  end.

(** [FeatureVisualizer._get_layer_by_name]; [None] is the Python [None] the
    function returns when an attribute is missing. *)
Definition _get_layer_by_name (model : pyobj) (layer_name : string) : option pyobj :=
  resolve_parts (split_dot layer_name) model.

(** ** LayerInspector *)

(** [prefix + ('.' if prefix else '') + name] of [nn.Module.named_modules]. *)
Definition submodule_prefix (prefix name : string) : string :=
  if String.eqb prefix "" then name else prefix +:+ "." +:+ name.

(** [nn.Module.named_modules(memo, prefix)]: the module itself, then its
    sub-modules depth first in registration order; a module object already in
    [memo] is not listed a second time. *)
Fixpoint named_modules (memo : list nat) (prefix : string) (o : pyobj)
  : list (string * pyobj) * list nat :=
  match o with
  | Obj (KModule id _ _) attrs =>
      if bool_decide (id ∈ memo) then ([], memo)
      else
        let below :=
          fold_left (fun acc na =>
                       let sub := named_modules (snd acc) (submodule_prefix prefix (fst na))
                                    (snd na) in
                       (fst acc ++ fst sub, snd sub))
                    attrs ([], id :: memo) in
        ((prefix, o) :: fst below, snd below)
  | _ => ([], memo)
  end.

Definition startswith_underscore (s : string) : bool :=
  match s with
  | String c _ => Ascii.eqb c "_"%char
  | EmptyString => false
  end.

Record LayerInspector : Type := mkInspector {
  model_name : string;
  layers_info : gmap string pyobj
}.

Definition record_layer (layers : gmap string pyobj) (nm : string * pyobj)
  : gmap string pyobj :=
  if negb (String.eqb nm.1 "") && negb (startswith_underscore nm.1)
  then <["visual." +:+ nm.1 := nm.2]> layers
  else layers.

(** [LayerInspector._extract_layers] *)
Definition _extract_layers (model : pyobj) : result (gmap string pyobj) :=
  match getattr model "visual" with
  | Some (Obj (KModule _ _ _) _ as visual) =>
      Ok (fold_left record_layer (named_modules [] "" visual).1 ∅)
  | _ => Raise AttributeError
  end.

(** [LayerInspector.__init__] *)
Definition LayerInspector_init (model : pyobj) (model_name : string)
  : result LayerInspector :=
  layers <- _extract_layers model ;;
  Ok (mkInspector model_name layers).

Definition str_le (a b : string) : Prop := String.leb a b = true.

#[global] Instance str_le_dec (a b : string) : Decision (str_le a b).
Proof. unfold str_le. apply _. Defined.

(** [LayerInspector.get_layer_names] *)
Definition get_layer_names (self : LayerInspector) : list string :=
  merge_sort str_le (map fst (map_to_list (layers_info self))).

(** [LayerInspector.get_layer] *)
Definition get_layer (self : LayerInspector) (layer_name : string) : option pyobj :=
  layers_info self !! layer_name.

(** [str(i)] for a non-negative integer. *)
Definition str_of_nat (i : nat) : string := NilZero.string_of_uint (Nat.to_uint i).

(** [range(n)] on an integer-valued Python object. *)
Definition py_range (o : pyobj) : result (list nat) :=
  match kind_of o with
  | KInt z => Ok (seq 0 (Z.to_nat z))
  | _ => Raise TypeError
  end.

(** [range(min(n, 768))] *)
Definition py_range_min768 (o : pyobj) : result (list nat) :=
  match kind_of o with
  | KInt z => Ok (seq 0 (Z.to_nat (Z.min z 768)))
  | _ => Raise TypeError
  end.

Definition is_int_zero (o : pyobj) : bool :=
  match kind_of o with KInt 0 => true | _ => false end.

(** The value of [num_neurons] after the [hasattr] cascade of
    [get_neuron_names]. *)
Definition num_neurons_of (layer : pyobj) : result pyobj :=
  match getattr layer "out_features" with
  | Some n => Ok n
  | None =>
      match getattr layer "weight" with
      | Some w =>
          match kind_of w with
          | KParam s _ _ =>
              match s with
              | d0 :: _ => Ok (Obj (KInt (Z.of_nat d0)) [])
              | [] => Ok (Obj (KInt 0) [])
              end
          | _ => Raise AttributeError      (* layer.weight.shape *)
          end
      | None => Ok (Obj (KInt 0) [])
      end
  end.

(** [LayerInspector.get_neuron_names] *)
Definition get_neuron_names (self : LayerInspector) (layer_name : string)
  : result (list string) :=
  match get_layer self layer_name with
  | None => Ok []
  | Some layer =>
      match kind_of layer with
      | KNone => Ok []
      | _ =>
        num_neurons <- num_neurons_of layer ;;
        if is_int_zero num_neurons then Ok []
        else
          match kind_of layer with
          | KModule _ Linear _ =>
              r <- py_range num_neurons ;;
              Ok (map (fun i => "neuron_" +:+ str_of_nat i) r)
          | KModule _ Conv2d _ =>
              let channels :=
                match getattr layer "out_channels" with
                | Some c => c
                | None => num_neurons
                end in
              r <- py_range channels ;;
              Ok (map (fun i => "channel_" +:+ str_of_nat i) r)
          | _ =>
              r <- py_range_min768 num_neurons ;;
              Ok (map (fun i => "unit_" +:+ str_of_nat i) r)
          end
      end
  end.

(** ** What PyTorch supplies *)

(** The output a module hands to its forward hooks while [model.visual] runs
    inside [torch.no_grad()]. *)
Inductive fwd_output : Type :=
| OutFresh (oshape : list nat) (odata : list Q)  (* a tensor computed by the forward pass *)
| OutInput                                       (* the very tensor object that was fed in *)
| OutOther.                                      (* not a tensor (a tuple, ...) *)

(** A run of [model.visual(x)]: the modules that ran, in order, each with the
    output its forward hooks receive; or the exception the network raised. *)
Inductive forward_run : Type :=
| Completed (trace : list (nat * fwd_output))
| Failed (code : nat).

Class Torch : Type := {
  (** state of the global random generator *)
  Rng : Type;
  (** the generator state [torch.manual_seed(seed)] installs *)
  manual_seed : Z -> Rng;
  (** the [k]-th standard normal sample drawn from a generator state *)
  randn_sample : Rng -> nat -> Q;
  (** the generator state after [n] samples were drawn *)
  rng_advance : Rng -> nat -> Rng;
  (** [visual(x)], a function of the network object and the input *)
  visual_forward : pyobj -> Tensor -> forward_run;
  (** [d loss / d leaf] for a [loss] that is connected to [leaf] *)
  autograd_grad : Tensor -> Tensor -> list Q;
  (** Adam: the optimizer state, its initial value for a learning rate, and
      one update of the parameter values from their gradient *)
  OptState : Type;
  Adam_init : Q -> OptState;
  Adam_step : OptState -> list Q -> list Q -> list Q * OptState
}.

(** ** Numerical helpers of the engine *)

Definition Qclamp (lo hi x : Q) : Q :=
  if Qlt_le_dec x lo then lo else if Qlt_le_dec hi x then hi else x.

Definition clip_mean : list Q := [48145466 # 100000000; 4578275 # 10000000; 40821073 # 100000000]%Q.
Definition clip_std : list Q := [26862954 # 100000000; 26130258 # 100000000; 27577711 # 100000000]%Q.

(** [self.normalize(image)] = [transforms.Normalize(mean, std)] on a
    [(1, 3, H, W)] tensor: per channel [(x - mean) / std]. *)
Definition normalize (image : Tensor) : Tensor :=
  let h := nth 2 (shape image) 0%nat in
  let w := nth 3 (shape image) 0%nat in
  mkTensor (shape image)
    (imap (fun k x =>
             let c := ((k / (h * w)) mod 3)%nat in
             ((x - at_ clip_mean c) / at_ clip_std c)%Q) (data image))
    (requires_grad image).

(** [FeatureVisualizer._total_variation] *)
Definition _total_variation (image : Tensor) : Q :=
  let planes := (nth 0 (shape image) 0 * nth 1 (shape image) 0)%nat in
  let h := nth 2 (shape image) 0%nat in
  let w := nth 3 (shape image) 0%nat in
  let px (n i j : nat) := at_ (data image) (n * h * w + i * w + j) in
  let diff1 :=
    flat_map (fun n => flat_map (fun i =>
      map (fun j => (px n i j - px n i (j + 1)%nat)%Q) (seq 0 (w - 1))) (seq 0 h))
      (seq 0 planes) in
  let diff2 :=
    flat_map (fun n => flat_map (fun i =>
      map (fun j => (px n i j - px n (i + 1)%nat j)%Q) (seq 0 w)) (seq 0 (h - 1)))
      (seq 0 planes) in
  (Qmean (map Qabs diff1) + Qmean (map Qabs diff2))%Q.

(** [F.avg_pool2d(image, kernel_size=3, stride=1, padding=1)]: zero padding,
    the padded cells counted in the divisor. *)
Definition avg_pool2d_3 (sh : list nat) (d : list Q) : list Q :=
  let planes := (nth 0 sh 0 * nth 1 sh 0)%nat in
  let h := nth 2 sh 0%nat in
  let w := nth 3 sh 0%nat in
  let padded (n a b : nat) : Q :=
    if ((1 <=? a) && (a <=? h) && (1 <=? b) && (b <=? w))%nat
    then at_ d (n * h * w + (a - 1) * w + (b - 1)) else 0%Q in
  flat_map (fun n => flat_map (fun i =>
    map (fun j =>
           (Qsum (flat_map (fun di => map (fun dj => padded n (i + di)%nat (j + dj)%nat)
                                         (seq 0 3)) (seq 0 3)) / 9)%Q)
        (seq 0 w)) (seq 0 h)) (seq 0 planes).

(** [FeatureVisualizer._apply_blur] with its default [kernel_size = 3]. *)
Definition _apply_blur (image : Tensor) : Tensor :=
  mkTensor (shape image) (avg_pool2d_3 (shape image) (data image)) (requires_grad image).

(** Truncation toward zero, the conversion of a float to an integer. *)
Definition Qtrunc (x : Q) : Z := Z.quot (Qnum x) (Z.pos (Qden x)).

(** [.astype(np.uint8)] of one value. *)
Definition astype_uint8 (x : Q) : Z := Qtrunc x mod 256.

(** *** Rounding to a binary floating-point format

    The result of a floating-point operation is the exact result rounded to
    the nearest value of the format, ties to the even significand. *)

(** [2^e] for an integer exponent. *)
Definition pow2 (e : Z) : Q := Qpower 2 e.

(** [floor (log2 x)] for a positive [x]. *)
Definition ilog2 (x : Q) : Z :=
  let e0 := Z.log2 (Qnum x) - Z.log2 (Z.pos (Qden x)) in
  if Qle_bool (pow2 e0) x then e0 else e0 - 1.

(** Rounding to the nearest integer, ties to even. *)
Definition round_half_even (x : Q) : Z :=
  let f := Qfloor x in
  match Qcompare (x - inject_Z f) (1 # 2) with
  | Lt => f
  | Gt => f + 1
  | Eq => if Z.even f then f else f + 1
  end.

(** A positive [x] rounded to [prec] significant bits, the exponent not below
    [emin] (gradual underflow; overflow to infinity is outside the
    embedding). *)
Definition round_pos (prec emin : Z) (x : Q) : Q :=
  let q := Z.max (ilog2 x) emin - (prec - 1) in
  (inject_Z (round_half_even (x / pow2 q)) * pow2 q)%Q.

Definition round_float (prec emin : Z) (x : Q) : Q :=
  match Qcompare x 0 with
  | Eq => 0%Q
  | Gt => round_pos prec emin x
  | Lt => (- round_pos prec emin (- x))%Q
  end.

(** [float32] and [float64] values. *)
Definition binary32 : Q -> Q := round_float 24 (-126).
Definition binary64 : Q -> Q := round_float 53 (-1022).

(** An element of [torch.tensor([...])] written as a decimal literal: Python
    reads the literal as a [float64], the tensor stores it as [float32]. *)
Definition float32_literal (x : Q) : Q := binary32 (binary64 x).

(** [x * std + mean] for channel [c]: two [float32] operations. *)
Definition denormalize (c : nat) (x : Q) : Q :=
  binary32 (binary32 (x * float32_literal (at_ clip_std c))
            + float32_literal (at_ clip_mean c))%Q.

(** One value of [_tensor_to_image] for channel [c]: denormalize,
    [torch.clamp(_, 0, 1)], [_.numpy() * 255] (a [float32] product),
    [.astype(np.uint8)]. *)
Definition to_byte (c : nat) (x : Q) : Z :=
  astype_uint8 (binary32 (Qclamp 0 1 (denormalize c x) * 255))%Q.

(** The [np.ndarray] of shape [(H, W, 3)] and the [PIL.Image] made from it. *)
Record Image : Type := mkImage {
  height : nat;
  width : nat;
  pixels : list Z        (* row-major, channel last *)
}.

(** [FeatureVisualizer._tensor_to_image] followed by [Image.fromarray], for
    an image tensor of shape [(1, 3, H, W)]: [squeeze(0).permute(1, 2, 0)],
    denormalize, clamp to [0, 1], scale by 255, cast to [uint8].  (An empty
    array, [H = W = 0], gives an image of size 0.) *)
Definition _tensor_to_image (image_tensor : Tensor) : Image :=
  let h := nth 2 (shape image_tensor) 0%nat in
  let w := nth 3 (shape image_tensor) 0%nat in
  mkImage h w
    (flat_map (fun i => flat_map (fun j =>
       map (fun c => to_byte c (at_ (data image_tensor) (c * h * w + i * w + j)))
           (seq 0 3)) (seq 0 w)) (seq 0 h)).

(** ** FeatureVisualizer *)

(** [module.to(device)]: every parameter of the module tree moves. *)
Fixpoint module_to (device : string) (o : pyobj) : pyobj :=
  match o with
  | Obj (KModule id cls tr) attrs =>
      Obj (KModule id cls tr) (map (fun na => (fst na, module_to device (snd na))) attrs)
  | Obj (KParam s rg _) attrs => Obj (KParam s rg device) attrs
  | _ => o
  end.

(** [module.eval()]: [training = False] on the module and its descendants. *)
Fixpoint module_eval (o : pyobj) : pyobj :=
  match o with
  | Obj (KModule id cls _) attrs =>
      Obj (KModule id cls false) (map (fun na => (fst na, module_eval (snd na))) attrs)
  | _ => o
  end.

(** [for param in module.parameters(): param.requires_grad = False] *)
Fixpoint freeze_parameters (o : pyobj) : pyobj :=
  match o with
  | Obj (KModule id cls tr) attrs =>
      Obj (KModule id cls tr) (map (fun na => (fst na, freeze_parameters (snd na))) attrs)
  | Obj (KParam s _ dev) attrs => Obj (KParam s false dev) attrs
  | _ => o
  end.

Definition no_grad_msg : string :=
  "element 0 of tensors does not require grad and does not have a grad_fn".

Definition layer_not_found (layer_name : string) : string :=
  "Layer " +:+ layer_name +:+ " not found".

Record FeatureVisualizer : Type := mkVisualizer {
  fv_device : string
}.

Section Engine.
Context `{T : Torch}.

(** The mutable state a call runs in: the caller's network object (which
    [self.model] aliases), the forward hooks installed on its modules
    (handle id to module id), the next handle id, the global generator. *)
Record World : Type := mkWorld {
  net : pyobj;
  forward_hooks : gmap nat nat;
  next_handle : nat;
  rng : Rng
}.

(** [FeatureVisualizer.__init__] *)
Definition FeatureVisualizer_init (w : World) (device : string)
  : FeatureVisualizer * World :=
  (mkVisualizer device,
   mkWorld (freeze_parameters (module_eval (module_to device (net w))))
           (forward_hooks w) (next_handle w) (rng w)).

Record LoopState : Type := mkLoop {
  ls_image : Tensor;
  ls_opt : OptState;
  ls_hook : NeuronActivationHook
}.

(** [torch.manual_seed(seed); np.random.seed(seed)] with the ranges the two
    libraries accept. *)
Definition seed_generators (w : World) (seed : option Z) : result unit * World :=
  match seed with
  | None => (Ok tt, w)
  | Some s =>
      if (s <? - 2 ^ 63) || (2 ^ 64 <=? s)
      then (Raise overflow_error, w)
      else
        let w' := mkWorld (net w) (forward_hooks w) (next_handle w) (manual_seed s) in
        if (s <? 0) || (2 ^ 32 <=? s)
        then (Raise (ValueError "Seed must be between 0 and 2**32 - 1"), w')
        else (Ok tt, w')
  end.

(** What the hook object receives for an output produced under
    [torch.no_grad()]: a computed tensor carries no gradient information; the
    input object handed through keeps its own. *)
Definition under_no_grad (input : Tensor) (out : fwd_output) : pyvalue :=
  match out with
  | OutFresh s d => PyTensor (mkTensor s d false)
  | OutInput => PyTensor input
  | OutOther => PyOther
  end.

(** A hook is called for every output of the module it is installed on
    ([installed_on], read from the hooks table under the hook's handle). *)
Definition run_hooks (installed_on : option nat) (input : Tensor)
    (trace : list (nat * fwd_output)) (h : NeuronActivationHook) : NeuronActivationHook :=
  fold_left (fun h ev =>
               if bool_decide (installed_on = Some ev.1)
               then hook_call h (under_no_grad input ev.2) else h) trace h.

(** [self.model.visual(x)] *)
Definition model_visual (w : World) (x : Tensor) : result (list (nat * fwd_output)) :=
  match getattr (net w) "visual" with
  | Some visual =>
      match visual_forward visual x with
      | Completed trace => Ok trace
      | Failed code => Raise (ForwardError code)
      end
  | None => Raise AttributeError
  end.

(** [loss.backward()] *)
Definition backward (loss image : Tensor) : result (list Q) :=
  if requires_grad loss then Ok (autograd_grad loss image)
  else Raise (RuntimeError no_grad_msg).

(** [image.data.clamp_(lo, hi)] *)
Definition clamp_ (image : Tensor) (lo hi : Q) : Tensor :=
  mkTensor (shape image) (map (Qclamp lo hi) (data image)) (requires_grad image).

(** A progress callback: called with [(iteration + 1, num_iterations,
    activation)], it returns ([None]) or raises ([Some code]). *)
Definition callback : Type := Z -> Z -> Q -> option nat.

Definition call_progress (cb : callback) (i n : Z) (a : Q) : result unit :=
  match cb i n a with
  | None => Ok tt
  | Some code => Raise (CallbackError code)
  end.

(** The body of [for iteration in range(num_iterations)].  The gradient is
    local to an iteration here, which is what [optimizer.zero_grad()] at the
    top of the body achieves; the order of the steps is the source's: forward
    under [no_grad], activation, [backward], optimizer step, total variation,
    periodic blur, clamp, progress callback. *)
Definition loop_body (w : World) (handle : nat) (num_iterations blur_every : Z)
    (progress_callback : option callback) (iteration : nat) (st : LoopState)
  : result LoopState :=
  let image := ls_image st in
  let normalized_image := normalize image in
  trace <- model_visual w normalized_image ;;
  let hook := run_hooks (forward_hooks w !! handle) normalized_image trace (ls_hook st) in
  activation <- get_activation_value hook ;;
  let loss := tensor_neg activation in
  grad <- backward loss image ;;
  let stepped := Adam_step (ls_opt st) (data image) grad in
  let image := mkTensor (shape image) stepped.1 true in
  let tv_loss := _total_variation image in
  let image := mkTensor (shape image)
                 (map (fun x => x - (1 # 100) * tv_loss)%Q (data image)) true in
  image <- (if blur_every =? 0 then Raise ZeroDivisionError
            else if (Z.of_nat iteration + 1) mod blur_every =? 0
                 then Ok (_apply_blur image) else Ok image) ;;
  let image := clamp_ image (-2) 2 in
  _ <- match progress_callback with
       | Some cb =>
           if (Z.of_nat iteration + 1) mod Z.max 1 (num_iterations / 20) =? 0
           then call_progress cb (Z.of_nat iteration + 1) num_iterations (item activation)
           else Ok tt
       | None => Ok tt
       end ;;
  Ok (mkLoop image stepped.2 hook).

Fixpoint run_loop (body : nat -> LoopState -> result LoopState)
    (iterations : list nat) (st : LoopState) : result LoopState :=
  match iterations with
  | [] => Ok st
  | iteration :: rest => st' <- body iteration st ;; run_loop body rest st'
  end.

(** [torch.randn(1, 3, n, n, requires_grad=True)] drawn from generator state [g]. *)
Definition initial_image (g : Rng) (n : nat) : Tensor :=
  mkTensor [1; 3; n; n]%nat (map (randn_sample g) (seq 0 (3 * n * n))) true.

(** [target_layer.register_forward_hook(hook)] on the module [module_id]. *)
Definition register_forward_hook (w : World) (module_id : nat) : nat * World :=
  (next_handle w,
   mkWorld (net w) (<[next_handle w := module_id]> (forward_hooks w))
           (S (next_handle w)) (rng w)).

(** [handle.remove()] *)
Definition handle_remove (w : World) (handle : nat) : World :=
  mkWorld (net w) (delete handle (forward_hooks w)) (next_handle w) (rng w).

(** [FeatureVisualizer.generate_image].  The image is drawn and the optimizer
    is built before the layer is looked up, as in the source, so the errors
    PyTorch raises for a negative size or learning rate come first. *)
Definition generate_image (self : FeatureVisualizer) (w : World)
    (layer_name : string) (neuron_index : option Z)
    (image_size num_iterations : Z) (learning_rate : Q) (blur_every : Z)
    (seed : option Z) (progress_callback : option callback)
  : result Image * World :=
  match seed_generators w seed with
  | (Raise e, w) => (Raise e, w)
  | (Ok _, w) =>
      if image_size <? 0
      then (Raise (RuntimeError "Trying to create tensor with negative dimension"), w)
      else
        let n := Z.to_nat image_size in
        let image := initial_image (rng w) n in
        let w := mkWorld (net w) (forward_hooks w) (next_handle w)
                         (rng_advance (rng w) (3 * n * n)) in
        if Qlt_le_dec learning_rate 0
        then (Raise (ValueError "Invalid learning rate"), w)
        else
          let optimizer := Adam_init learning_rate in
          match _get_layer_by_name (net w) layer_name with
          | None => (Raise (ValueError (layer_not_found layer_name)), w)
          | Some target_layer =>
              match kind_of target_layer with
              | KNone => (Raise (ValueError (layer_not_found layer_name)), w)
              | KModule module_id _ _ =>
                  let hook := NeuronActivationHook_init neuron_index in
                  let '(handle, w) := register_forward_hook w module_id in
                  let r := run_loop
                             (loop_body w handle num_iterations blur_every progress_callback)
                             (seq 0 (Z.to_nat num_iterations))
                             (mkLoop image optimizer hook) in
                  let w := handle_remove w handle in
                  match r with
                  | Ok st => (Ok (_tensor_to_image (ls_image st)), w)
                  | Raise e => (Raise e, w)
                  end
              | _ => (Raise AttributeError, w)
              end
          end
  end.

(** The seeds both [torch.manual_seed] and [np.random.seed] accept. *)
Definition seed_in_range (seed : option Z) : Prop :=
  match seed with
  | Some s => 0 <= s < 2 ^ 32
  | None => True
  end.

(** The generator state the initial image is drawn from. *)
Definition rng_after_seed (w : World) (seed : option Z) : Rng :=
  match seed with
  | Some s => manual_seed s
  | None => rng w
  end.

(** The state the loop starts from. *)
Definition start_state (w : World) (seed : option Z) (image_size : Z)
    (learning_rate : Q) (neuron_index : option Z) : LoopState :=
  mkLoop (initial_image (rng_after_seed w seed) (Z.to_nat image_size))
         (Adam_init learning_rate) (NeuronActivationHook_init neuron_index).

End Engine.

(** ** Notions the statements below use *)

(** A hook object that holds nothing through which a gradient could flow. *)
Definition holds_no_grad (h : NeuronActivationHook) : Prop :=
  match activation h with
  | Some (PyTensor t) => requires_grad t = false
  | _ => True
  end.

(** The name [named_modules] builds for the module reached through [parts]. *)
Definition join_path (parts : list string) : string :=
  fold_left submodule_prefix parts "".

(** The last output module [m] produced during a forward run, if it ran. *)
Definition last_output (m : nat) (trace : list (nat * fwd_output)) : option fwd_output :=
  fold_left (fun acc ev => if bool_decide (ev.1 = m) then Some ev.2 else acc) trace None.

Definition is_module (o : pyobj) : bool :=
  match kind_of o with KModule _ _ _ => true | _ => false end.

Fixpoint has_dot (s : string) : bool :=
  match s with
  | EmptyString => false
  | String c s' => Ascii.eqb c "."%char || has_dot s'
  end.

(** The names [nn.Module.add_module] accepts: not empty, no dot. *)
Definition valid_name (s : string) : bool :=
  negb (String.eqb s "") && negb (has_dot s).

(** Well-formed object graphs: attribute names are unique within an object
    and sub-modules are registered under valid names. *)
Fixpoint wf_obj (o : pyobj) : bool :=
  match o with
  | Obj _ attrs =>
      bool_decide (NoDup (map fst attrs)) &&
      forallb (fun na => implb (is_module (snd na)) (valid_name (fst na)) && wf_obj (snd na))
              attrs
  end.

(** The network with its modes forgotten: training flags, [requires_grad]
    flags and device placement. *)
Fixpoint forget_modes (o : pyobj) : pyobj :=
  match o with
  | Obj (KModule id cls _) attrs =>
      Obj (KModule id cls false) (map (fun na => (fst na, forget_modes (snd na))) attrs)
  | Obj (KParam s _ _) attrs => Obj (KParam s false "") attrs
  | _ => o
  end.

(** A path resolves when the attribute walk of [_get_layer_by_name] ends at
    an object other than [None]. *)
Definition resolves (model : pyobj) (layer_name : string) : bool :=
  match _get_layer_by_name model layer_name with
  | Some target => match kind_of target with KNone => false | _ => true end
  | None => false
  end.

(** The output-axis size in the words of the specification: [out_features],
    else [out_channels], else the leading dimension of [weight]. *)
Definition declared_axis_size (layer : pyobj) : option Z :=
  match getattr layer "out_features" with
  | Some (Obj (KInt n) _) => Some n
  | _ =>
      match getattr layer "out_channels" with
      | Some (Obj (KInt n) _) => Some n
      | _ =>
          match getattr layer "weight" with
          | Some (Obj (KParam (d :: _) _ _) _) => Some (Z.of_nat d)
          | _ => None
          end
      end
  end.

(** The final conversion in the words of the specification: scale to the
    8-bit range and round (to the nearest integer). *)
Definition round_nearest (x : Q) : Z := Qfloor (x + (1 # 2))%Q.

Definition rounded_byte (c : nat) (x : Q) : Z :=
  round_nearest (binary32 (Qclamp 0 1 (denormalize c x) * 255))%Q.

Definition in_byte_range (b : Z) : Prop := 0 <= b <= 255.

(** ** The callers: [api_server.py], [app.py], [batch.py], [cli.py]

    Printing is left out; what a caller does is recorded in its result. *)

(** [str(i)] for an integer. *)
Definition str_of_Z (i : Z) : string := NilZero.string_of_int (Z.to_int i).


(** [s.replace('.', '_')] *)
Fixpoint dots_to_underscores (s : string) : string :=
  match s with
  | EmptyString => EmptyString
  | String c s' =>
      String (if Ascii.eqb c "."%char then "_"%char else c) (dots_to_underscores s')
  end.




(** [{name: idx for idx, name in enumerate(neuron_names)}] of [app.py] *)
Definition neuron_options (neuron_names : list string) : gmap string nat :=
  fold_left (fun options idx_name => <[idx_name.2 := idx_name.1]> options)
            (imap (fun idx name => (idx, name)) neuron_names) ∅.

(** [list(range(start, stop, step))] *)
Definition py_range3 (start stop step : Z) : result (list Z) :=
  if step =? 0 then Raise (ValueError "range() arg 3 must not be zero")
  else
    let count :=
      if 0 <? step
      then (if start <? stop then (stop - start - 1) / step + 1 else 0)
      else (if stop <? start then (start - stop - 1) / (- step) + 1 else 0) in
    Ok (map (fun k => start + Z.of_nat k * step) (seq 0 (Z.to_nat count))).

(** The cells of the text progress bar of [cli.py] and [batch.py]:
    ["█" * filled + "░" * (bar_length - filled)] with
    [filled = int(bar_length * current / total)]; [true] is a filled cell.
    A string repeated a negative number of times is empty. *)
Definition progress_bar (bar_length current total : Z) : list bool :=
  let filled := Z.quot (bar_length * current) total in
  repeat true (Z.to_nat filled) ++ repeat false (Z.to_nat (bar_length - filled)).

Inductive http_response : Type :=
| StreamingResponse (body : Image) (filename : string)
| HTTPException (status_code : nat) (detail : exn).

Inductive neuron_status : Type :=
| StatusSkipped (file : string)
| StatusSuccess (file : string)
| StatusError (e : exn).

Record cli_args : Type := mkArgs {
  arg_list_layers : bool;
  arg_layer : option string;
  arg_neuron : option Z;
  arg_neurons : bool;
  arg_output : string;
  arg_size : Z;
  arg_iterations : Z;
  arg_lr : Q;
  arg_blur_every : Z;
  arg_seed : Z
}.

(** What a run of [cli.py] ends with. *)
Inductive cli_outcome : Type :=
| ListedLayers (names : list string)
| LayerRequired
| LayerUnknown (available : list string)
| ListedNeurons (names : list string)
| NeuronRequired
| NeuronOutOfRange (count : nat)
| ImageSaved (image : Image) (path : string)
| GenerationFailed (e : exn).

Section Callers.
Context `{T : Torch}.

(** The progress callbacks of the callers format and print; with
    [total >= 1], as the engine calls them, they return normally. *)
Definition print_progress : callback := fun _ _ _ => None.

(** [generate_visualization] of [api_server.py], the models being
    initialized. *)
Definition generate_visualization (visualizer : FeatureVisualizer) (w : World)
    (layer_name : string) (neuron_index image_size num_iterations : Z)
    (learning_rate : Q) (blur_every seed : Z) : http_response * World :=
  if (image_size <? 64) || (512 <? image_size)
  then (HTTPException 500 (ValueError "image_size must be between 64 and 512"), w)
  else if (num_iterations <? 100) || (5000 <? num_iterations)
  then (HTTPException 500 (ValueError "num_iterations must be between 100 and 5000"), w)
  else
    match generate_image visualizer w layer_name (Some neuron_index) image_size
            num_iterations learning_rate blur_every (Some seed) None with
    | (Ok generated_image, w') =>
        (StreamingResponse generated_image ("neuron_" +:+ str_of_Z neuron_index +:+ ".png"), w')
    | (Raise e, w') => (HTTPException 500 e, w')
    end.

(** The state of a batch: the world, the files of the output directory, the
    [neurons] table of the metadata. *)
Record BatchState : Type := mkBatch {
  b_world : World;
  b_files : gset string;
  b_neurons : gmap Z (string * neuron_status)
}.

(** One round of the loop of [batch_generate]. *)
Definition batch_step (visualizer : FeatureVisualizer) (layer_name : string)
    (neuron_names : list string) (image_size iterations : Z) (learning_rate : Q)
    (blur_every seed_base : Z) (skip_existing : bool)
    (st : BatchState) (neuron_idx : Z) : result BatchState :=
  if Z.of_nat (length neuron_names) <=? neuron_idx then Ok st
  else
    k <- py_index (length neuron_names) neuron_idx ;;
    let neuron_name := nth k neuron_names "" in
    let filename :=
      dots_to_underscores layer_name +:+ "_neuron_" +:+ str_of_Z neuron_idx +:+ ".png" in
    if bool_decide (filename ∈ b_files st) && skip_existing
    then Ok (mkBatch (b_world st) (b_files st)
               (<[neuron_idx := (neuron_name, StatusSkipped filename)]> (b_neurons st)))
    else
      match generate_image visualizer (b_world st) layer_name (Some neuron_idx) image_size
              iterations learning_rate blur_every (Some (seed_base + neuron_idx))
              (Some print_progress) with
      | (Ok image, w') =>
          Ok (mkBatch w' ({[filename]} ∪ b_files st)
                (<[neuron_idx := (neuron_name, StatusSuccess filename)]> (b_neurons st)))
      | (Raise e, w') =>
          Ok (mkBatch w' (b_files st)
                (<[neuron_idx := (neuron_name, StatusError e)]> (b_neurons st)))
      end.

Fixpoint batch_loop (step : BatchState -> Z -> result BatchState)
    (neuron_indices : list Z) (st : BatchState) : result BatchState :=
  match neuron_indices with
  | [] => Ok st
  | neuron_idx :: rest => st' <- step st neuron_idx ;; batch_loop step rest st'
  end.

(** [batch_generate] of [batch.py] on a loaded model; [None] when the layer
    is not one of the directory's. *)
Definition batch_generate (w : World) (device : string) (files : gset string)
    (layer_name : string) (neuron_range : Z * Z * Z) (image_size iterations : Z)
    (learning_rate : Q) (blur_every seed_base : Z) (skip_existing : bool)
  : result (option BatchState) :=
  inspector <- LayerInspector_init (net w) "ViT-B/32" ;;
  let (visualizer, w) := FeatureVisualizer_init w device in
  if bool_decide (layer_name ∈ get_layer_names inspector) then
    neuron_names <- get_neuron_names inspector layer_name ;;
    let '(start, end_, step) := neuron_range in
    let end_ := if Z.of_nat (length neuron_names) <? end_
                then Z.of_nat (length neuron_names) else end_ in
    neuron_indices <- py_range3 start end_ step ;;
    st <- batch_loop (batch_step visualizer layer_name neuron_names image_size iterations
                        learning_rate blur_every seed_base skip_existing)
            neuron_indices (mkBatch w files ∅) ;;
    Ok (Some st)
  else Ok None.

(** [main] of [cli.py] on a loaded model. *)
Definition cli_main (args : cli_args) (w : World) (device : string)
  : result cli_outcome * World :=
  match LayerInspector_init (net w) "ViT-B/32" with
  | Raise e => (Raise e, w)
  | Ok inspector =>
      if arg_list_layers args then (Ok (ListedLayers (get_layer_names inspector)), w)
      else
        match arg_layer args with
        | None => (Ok LayerRequired, w)
        | Some layer =>
            if String.eqb layer "" then (Ok LayerRequired, w)
            else
              let layer_names := get_layer_names inspector in
              if negb (bool_decide (layer ∈ layer_names))
              then (Ok (LayerUnknown layer_names), w)
              else
                if arg_neurons args then
                  match get_neuron_names inspector layer with
                  | Raise e => (Raise e, w)
                  | Ok neuron_names => (Ok (ListedNeurons neuron_names), w)
                  end
                else
                  match arg_neuron args with
                  | None => (Ok NeuronRequired, w)
                  | Some neuron =>
                      match get_neuron_names inspector layer with
                      | Raise e => (Raise e, w)
                      | Ok neuron_names =>
                          if Z.of_nat (length neuron_names) <=? neuron
                          then (Ok (NeuronOutOfRange (length neuron_names)), w)
                          else
                            let (visualizer, w) := FeatureVisualizer_init w device in
                            match py_index (length neuron_names) neuron with
                            | Raise e => (Raise e, w)
                            | Ok _ =>
                                match generate_image visualizer w layer (Some neuron)
                                        (arg_size args) (arg_iterations args) (arg_lr args)
                                        (arg_blur_every args) (Some (arg_seed args))
                                        (Some print_progress) with
                                | (Ok generated_image, w') =>
                                    (Ok (ImageSaved generated_image (arg_output args)), w')
                                | (Raise e, w') => (Ok (GenerationFailed e), w')
                                end
                            end
                      end
                  end
        end
  end.

(** What the loop of the batch keeps true of the metadata: the recorded
    units are the ones processed, each under its own name. *)
Definition recorded (names : list string) (seen : gset Z) (st : BatchState) : Prop :=
  dom (b_neurons st) = seen /\
  forall idx name status,
    b_neurons st !! idx = Some (name, status) -> names !! Z.to_nat idx = Some name.

End Callers.

(** A value of the dictionary [get_layer_info] returns. *)
Inductive info_value : Type :=
| InfoStr (s : string)
| InfoInt (n : Z)
| InfoObj (o : pyobj).

Section LayerInfo.
(** [type(layer).__name__] and [sum(p.numel() for p in layer.parameters())],
    as Python and PyTorch give them for an object of the network. *)
Variable type_name : pyobj -> string.
Variable parameter_count : pyobj -> Z.

(** [LayerInspector.get_layer_info] *)
Definition get_layer_info (self : LayerInspector) (layer_name : string)
  : gmap string info_value :=
  match get_layer self layer_name with
  | None => ∅
  | Some layer =>
      match kind_of layer with
      | KNone => ∅
      | _ =>
          let info : gmap string info_value :=
            <["parameters" := InfoInt (parameter_count layer)]>
              (<["type" := InfoStr (type_name layer)]>
                 (<["name" := InfoStr layer_name]> ∅)) in
          match getattr layer "out_features" with
          | Some f => <["out_features" := InfoObj f]> info
          | None =>
              match getattr layer "num_channels" with
              | Some c => <["num_channels" := InfoObj c]> info
              | None => info
              end
          end
      end
  end.

End LayerInfo.

(** A network object whose modules are in evaluation mode and whose
    parameters are frozen and placed on [device]. *)
Fixpoint settled (device : string) (o : pyobj) : bool :=
  match o with
  | Obj (KModule _ _ tr) attrs => negb tr && forallb (fun na => settled device (snd na)) attrs
  | Obj (KParam _ rg dev) _ => negb rg && String.eqb dev device
  | _ => true
  end.

(** [x] lies between [lo] and [hi]. *)
Definition within (lo hi x : Q) : Prop := (lo <= x <= hi)%Q.

(** The prefix of the unit names of a layer: [neuron_] for [nn.Linear],
    [channel_] for [nn.Conv2d], [unit_] for anything else. *)
Definition name_prefix (layer : pyobj) : string :=
  match kind_of layer with
  | KModule _ Linear _ => "neuron_"
  | KModule _ Conv2d _ => "channel_"
  | _ => "unit_"
  end.

(** An image of shape [(b, c, h, w)] each of whose [b * c] planes holds one
    value throughout. *)
Definition flat (image : Tensor) : Prop :=
  let planes := (nth 0 (shape image) 0 * nth 1 (shape image) 0)%nat in
  let h := nth 2 (shape image) 0%nat in
  let w := nth 3 (shape image) 0%nat in
  forall n i j, (n < planes)%nat -> (i < h)%nat -> (j < w)%nat ->
    (at_ (data image) (n * h * w + i * w + j) == at_ (data image) (n * h * w))%Q.

(** The largest byte a channel can show once the image was clamped to
    [-2, 2]. *)
Definition channel_ceiling (c : nat) : Z := nth c [255; 250; 244] 0.

(** Two objects of the same sort: both modules or neither, both [None] or
    neither. *)
Definition same_sort (a b : pyobj) : Prop :=
  is_module a = is_module b /\ (kind_of a = KNone <-> kind_of b = KNone).

(** ** A small network and a small PyTorch, to run the definitions on *)

Module Toy.

Definition param (s : list nat) : pyobj := Obj (KParam s true "cpu") [].
Definition int (z : Z) : pyobj := int_obj z.

(** [nn.Conv2d(3, 2, kernel_size=1, bias=False)] *)
Definition conv1 : pyobj :=
  Obj (KModule 2 Conv2d true)
      [("in_channels", int 3); ("out_channels", int 2);
       ("weight", param [2; 3; 1; 1]%nat); ("bias", Obj KNone [])].

(** [nn.LayerNorm(2)] *)
Definition ln_pre : pyobj :=
  Obj (KModule 3 OtherModule true)
      [("weight", param [2%nat]); ("bias", param [2%nat])].

(** [nn.Linear(2, 3)] *)
Definition fc : pyobj :=
  Obj (KModule 4 Linear true)
      [("in_features", int 2); ("out_features", int 3);
       ("weight", param [3; 2]%nat); ("bias", param [3%nat])].

(** [nn.Identity()] *)
Definition pre : pyobj := Obj (KModule 5 OtherModule true) [].

(** [nn.MultiheadAttention(2, 1)], whose forward returns a tuple *)
Definition attn : pyobj :=
  Obj (KModule 6 OtherModule true) [("in_proj_weight", param [6; 2]%nat)].

(** [nn.ConvTranspose2d(3, 5, kernel_size=2)] *)
Definition up : pyobj :=
  Obj (KModule 7 OtherModule true)
      [("in_channels", int 3); ("out_channels", int 5);
       ("weight", param [3; 5; 2; 2]%nat)].

(** [visual.transformer.resblocks.0.ln_1], as in the vision transformer *)
Definition ln_1 : pyobj :=
  Obj (KModule 12 OtherModule true) [("weight", param [2%nat]); ("bias", param [2%nat])].

Definition resblock0 : pyobj := Obj (KModule 11 OtherModule true) [("ln_1", ln_1)].

Definition resblocks : pyobj := Obj (KModule 10 OtherModule true) [("0", resblock0)].

Definition visual_transformer : pyobj :=
  Obj (KModule 9 OtherModule true) [("width", int 2); ("resblocks", resblocks)].

Definition visual : pyobj :=
  Obj (KModule 1 OtherModule true)
      [("pre", pre); ("conv1", conv1); ("ln_pre", ln_pre); ("attn", attn);
       ("transformer", visual_transformer);
       ("fc", fc); ("up", up); ("proj", param [3; 3]%nat)].

(** the text tower, which [model.visual] never runs *)
Definition transformer : pyobj :=
  Obj (KModule 8 OtherModule true) [("width", int 4)].

Definition model : pyobj :=
  Obj (KModule 0 OtherModule true)
      [("visual", visual); ("transformer", transformer);
       ("logit_scale", param []); ("eval", Obj KOther [])].

Definition forward (v : pyobj) (x : Tensor) : forward_run :=
  let s := Qsum (data x) in
  Completed [ (5, OutInput);
       (2, OutFresh [1; 2; 1; 1] [at_ (data x) 0; s]);
       (3, OutFresh [1; 1; 2] [s; s + 1]%Q);
       (6, OutOther);
       (12, OutFresh [2; 1; 2] [s; 1; 2; 3]%Q);
       (11, OutFresh [2; 1; 2] [s; 1; 2; 3]%Q);
       (10, OutFresh [2; 1; 2] [s; 1; 2; 3]%Q);
       (9, OutFresh [2; 1; 2] [s; 1; 2; 3]%Q);
       (4, OutFresh [1; 3] [1; s; 2]%Q);
       (7, OutFresh [1; 5; 1; 1] [s; 1; 2; 3; 4]%Q);
       (1, OutFresh [1; 3] [s; 0; 1]%Q) ]%nat.

Definition torch : Torch := {|
  Rng := Z;
  manual_seed := fun s => s;
  randn_sample := fun g k => ((g + Z.of_nat k) mod 5 - 2) # 2;
  rng_advance := fun g n => g + Z.of_nat n;
  visual_forward := forward;
  autograd_grad := fun loss leaf => map (fun _ => (-1)%Q) (data leaf);
  OptState := Q;
  Adam_init := fun lr => lr;
  Adam_step := fun lr p g => (zip_with (fun x d => x - lr * d)%Q p g, lr)
|}.

Definition world : @World torch := @mkWorld torch model ∅ 0 7.

Definition visualizer : FeatureVisualizer := (@FeatureVisualizer_init torch world "cpu").1.

(** the world once the visualizer has been constructed *)
Definition ready : @World torch := (@FeatureVisualizer_init torch world "cpu").2.

Definition run (w : @World torch) (layer_name : string) (neuron_index : option Z)
    (image_size num_iterations : Z) (seed : option Z) : result Image * @World torch :=
  @generate_image torch visualizer w layer_name neuron_index image_size
    num_iterations (1 # 100) 10 seed None.

(** the directory of the same network object (its modules are the ones the
    visualizer has put in evaluation mode) *)
Definition inspector : LayerInspector :=
  match LayerInspector_init (net ready) "ViT-B/32" with
  | Ok i => i
  | Raise _ => mkInspector "" ∅
  end.

(** a second world: same network, other hooks table, counter and generator *)
Definition other_world : @World torch := @mkWorld torch (net ready) {[ 3%nat := 9%nat ]} 5 1234.

(** arguments of a run of the command-line tool on [visual.fc] *)
Definition args (neuron : Z) : cli_args :=
  mkArgs false (Some "visual.fc") (Some neuron) false "generated_image.png" 2 1 (1 # 100) 10 42.

End Toy.

(** * Properties *)

(** ** Results, hooks and the activation scalar *)

Lemma bind_ok {A B : Type} (r : result A) (k : A -> result B) (b : B) :
  bind r k = Ok b -> exists a, r = Ok a /\ k a = Ok b.
Proof. destruct r as [a|e]; simpl; [eauto | discriminate]. Qed.

Lemma select_dim1_requires_grad t i a :
  select_dim1 t i = Ok a -> requires_grad a = requires_grad t.
Proof.
  unfold select_dim1. destruct (shape t) as [|b [|c rest]]; try discriminate.
  destruct (tensor_index c i); simpl; [|discriminate].
  intros [= <-]. reflexivity.
Qed.

Lemma mean_dim1_requires_grad t a :
  mean_dim1 t = Ok a -> requires_grad a = requires_grad t.
Proof.
  unfold mean_dim1. destruct (shape t) as [|b [|c rest]]; try discriminate.
  intros [= <-]. reflexivity.
Qed.

Lemma get_activation_value_no_grad h a :
  holds_no_grad h -> get_activation_value h = Ok a -> requires_grad a = false.
Proof.
  unfold holds_no_grad, get_activation_value.
  destruct (activation h) as [[t|]|]; [| discriminate | intros _ [= <-]; reflexivity].
  intros Hg H. apply bind_ok in H as (x & Hx & [= <-]). simpl.
  rewrite <- Hg.
  destruct (length (shape t) =? 4)%nat; [|destruct (length (shape t) =? 2)%nat].
  - destruct (neuron_index h); eauto using select_dim1_requires_grad, mean_dim1_requires_grad.
  - destruct (neuron_index h); eauto using select_dim1_requires_grad, mean_dim1_requires_grad.
  - by injection Hx as ->.
Qed.

Section HookFacts.
Context `{T : Torch}.


(** What the hook holds after a forward run is the last output of the module
    it is installed on. *)
Lemma run_hooks_activation m input trace h :
  activation (run_hooks (Some m) input trace h) =
    match last_output m trace with
    | Some o => Some (under_no_grad input o)
    | None => activation h
    end.
Proof.
  unfold run_hooks, last_output.
  cut (forall (acc : option fwd_output) h0,
    activation h0 = match acc with Some o => Some (under_no_grad input o) | None => activation h end ->
    activation (fold_left (fun h ev =>
        if bool_decide (Some m = Some ev.1)
        then hook_call h (under_no_grad input ev.2) else h) trace h0) =
    match fold_left (fun acc ev => if bool_decide (ev.1 = m) then Some ev.2 else acc) trace acc with
    | Some o => Some (under_no_grad input o)
    | None => activation h
    end).
  { intros G. by apply (G None h). }
  induction trace as [|[mid out] trace IH]; intros acc h0 Hacc; simpl.
  - destruct acc; done.
  - case_bool_decide as E1; case_bool_decide as E2; simpl in *; try congruence.
    + by apply IH.
    + by apply IH.
Qed.


Lemma last_output_in m o trace :
  last_output m trace = Some o -> (m, o) ∈ trace.
Proof.
  unfold last_output.
  cut (forall acc, fold_left (fun acc ev => if bool_decide (ev.1 = m) then Some ev.2 else acc) trace acc = Some o ->
                   acc = Some o \/ (m, o) ∈ trace).
  { intros G H. destruct (G None H) as [?|?]; [discriminate | done]. }
  induction trace as [|[mid out] trace IH]; intros acc; simpl; [by left|].
  intros H. apply IH in H as [H|H].
  - case_bool_decide; simpl in *; [|by left].
    injection H as ->. subst. right. left.
  - right. by right.
Qed.

End HookFacts.

Section LoopFacts.
Context `{T : Torch}.

(** The loop body reads the world only through the network object and the
    entry of the hooks table under the hook's own handle. *)
Lemma loop_body_ext w1 w2 h1 h2 n be cb it st :
  net w1 = net w2 ->
  forward_hooks w1 !! h1 = forward_hooks w2 !! h2 ->
  loop_body w1 h1 n be cb it st = loop_body w2 h2 n be cb it st.
Proof.
  intros Hn Hh. unfold loop_body, model_visual. by rewrite Hn, Hh.
Qed.

Lemma run_loop_ext body1 body2 its st :
  (forall it st, body1 it st = body2 it st) ->
  run_loop body1 its st = run_loop body2 its st.
Proof.
  intros E. revert st. induction its as [|it its IH]; intros st; simpl; [done|].
  rewrite E. destruct (body2 it st); simpl; [apply IH | done].
Qed.

Lemma run_loop_first_raises body it its st e :
  body it st = Raise e -> run_loop body (it :: its) st = Raise e.
Proof. intros H. simpl. by rewrite H. Qed.

Lemma iterations_cons (n : Z) :
  0 < n -> seq 0 (Z.to_nat n) = 0%nat :: seq 1 (Z.to_nat n - 1).
Proof.
  intros Hn. destruct (Z.to_nat n) as [|k] eqn:E; [lia|].
  simpl. by rewrite Nat.sub_0_r.
Qed.


Lemma backward_no_grad loss image :
  requires_grad loss = false -> backward loss image = Raise (RuntimeError no_grad_msg).
Proof. unfold backward. by intros ->. Qed.

(** When the activation read from the hook carries no gradient information,
    [loss.backward()] raises and the iteration ends there. *)
Lemma loop_body_backward_raises w handle n be cb it st trace a :
  model_visual w (normalize (ls_image st)) = Ok trace ->
  get_activation_value
    (run_hooks (forward_hooks w !! handle) (normalize (ls_image st)) trace (ls_hook st)) = Ok a ->
  requires_grad a = false ->
  loop_body w handle n be cb it st = Raise (RuntimeError no_grad_msg).
Proof.
  intros Hf Ha Hg. unfold loop_body. rewrite Hf. simpl. rewrite Ha. simpl.
  rewrite backward_no_grad; [done|]. done.
Qed.

Lemma run_hooks_holds_no_grad m input trace h :
  holds_no_grad h ->
  (m, OutInput) ∉ trace ->
  holds_no_grad (run_hooks (Some m) input trace h).
Proof.
  intros Hh Hn. unfold holds_no_grad in *. rewrite run_hooks_activation.
  destruct (last_output m trace) as [o|] eqn:E; [|done].
  apply last_output_in in E.
  destruct o; simpl; try done. 
Qed.

(** An iteration whose tapped output was computed by the forward pass never
    completes. *)
Lemma loop_body_never_completes w handle m n be cb it st :
  forward_hooks w !! handle = Some m ->
  holds_no_grad (ls_hook st) ->
  (forall x trace, model_visual w x = Ok trace -> (m, OutInput) ∉ trace) ->
  exists e, loop_body w handle n be cb it st = Raise e.
Proof.
  intros Hm Hh Hfresh.
  destruct (model_visual w (normalize (ls_image st))) as [trace|e] eqn:Hf.
  2:{ exists e. unfold loop_body. by rewrite Hf. }
  destruct (get_activation_value
    (run_hooks (forward_hooks w !! handle) (normalize (ls_image st)) trace (ls_hook st)))
    as [a|e] eqn:Ha.
  2:{ exists e. unfold loop_body. rewrite Hf. simpl. by rewrite Ha. }
  exists (RuntimeError no_grad_msg).
  eapply loop_body_backward_raises; eauto.
  eapply get_activation_value_no_grad; [|exact Ha].
  rewrite Hm. apply run_hooks_holds_no_grad; eauto.
Qed.


End LoopFacts.

Section EngineFacts.
Context `{T : Torch}.

Lemma seed_generators_in_range w seed :
  seed_in_range seed ->
  seed_generators w seed =
    (Ok tt, mkWorld (net w) (forward_hooks w) (next_handle w) (rng_after_seed w seed)).
Proof.
  unfold seed_in_range, seed_generators, rng_after_seed. destruct seed as [s|].
  - intros [H0 H1].
    replace (s <? - 2 ^ 63) with false by (symmetry; apply Z.ltb_ge; lia).
    replace (2 ^ 64 <=? s) with false by (symmetry; apply Z.leb_gt; lia).
    replace (s <? 0) with false by (symmetry; apply Z.ltb_ge; lia).
    replace (2 ^ 32 <=? s) with false by (symmetry; apply Z.leb_gt; lia).
    reflexivity.
  - intros _. by destruct w.
Qed.

Lemma seed_generators_net w seed :
  net (seed_generators w seed).2 = net w.
Proof.
  unfold seed_generators. destruct seed as [s|]; [|done].
  destruct (_ || _); [done|]. destruct (_ || _); done.
Qed.

Lemma seed_generators_hooks w seed :
  forward_hooks (seed_generators w seed).2 = forward_hooks w /\
  next_handle (seed_generators w seed).2 = next_handle w.
Proof.
  unfold seed_generators. destruct seed as [s|]; [|done].
  destruct (_ || _); [done|]. destruct (_ || _); done.
Qed.

(** With arguments PyTorch accepts and a path that resolves to a module, the
    call is the loop run with the tap installed, then the conversion. *)
Lemma generate_image_runs_loop self w layer idx size n lr be seed cb target m cls tr :
  seed_in_range seed -> 0 <= size -> (0 <= lr)%Q ->
  _get_layer_by_name (net w) layer = Some target ->
  kind_of target = KModule m cls tr ->
  (generate_image self w layer idx size n lr be seed cb).1 =
    match run_loop (loop_body (register_forward_hook w m).2 (next_handle w) n be cb)
                   (seq 0 (Z.to_nat n)) (start_state w seed size lr idx) with
    | Ok st => Ok (_tensor_to_image (ls_image st))
    | Raise e => Raise e
    end.
Proof.
  intros Hs Hsz Hlr Hres Hk. unfold generate_image.
  rewrite (seed_generators_in_range _ _ Hs). simpl.
  replace (size <? 0) with false by (symmetry; apply Z.ltb_ge; lia).
  destruct (Qlt_le_dec lr 0) as [Hlt|_].
  { exfalso. apply (Qlt_not_le _ _ Hlt Hlr). }
  rewrite Hres, Hk. simpl.
  match goal with
  | |- context [run_loop ?b ?l ?s] =>
      rewrite (run_loop_ext b
                 (loop_body (register_forward_hook w m).2 (next_handle w) n be cb) l s)
  end.
  - unfold start_state. destruct (run_loop _ _ _); reflexivity.
  - intros it st. apply loop_body_ext; simpl; [done|].
    by rewrite !lookup_insert_eq.
Qed.

End EngineFacts.

Section EngineClaims.
Context `{T : Torch}.

(** C3 (as the code has it).  For a tapped tensor whose rank is neither 4 nor
    2 no shape error is raised: the unit index is ignored and the activation
    scalar is the mean over all elements of the tensor. *)
Theorem other_rank_activation_is_global_mean (h : NeuronActivationHook) (t : Tensor) :
  activation h = Some (PyTensor t) ->
  length (shape t) <> 4%nat ->
  length (shape t) <> 2%nat ->
  get_activation_value h = Ok (tensor_mean t).
Proof.
  intros Ha H4 H2. unfold get_activation_value. rewrite Ha.
  apply Nat.eqb_neq in H4, H2. by rewrite H4, H2.
Qed.

(** C1.  The forward pass runs under [torch.no_grad()], so an output the tap
    receives from the network carries no gradient information; whenever the
    tapped module computes its output (it does not hand the input object
    through), [loss.backward()] cannot reach the image and no call with at
    least one iteration returns an image. *)
Theorem gradient_never_reaches_image self w layer idx size n lr be seed cb :
  0 < n ->
  (forall target m cls tr x trace,
     _get_layer_by_name (net w) layer = Some target ->
     kind_of target = KModule m cls tr ->
     model_visual w x = Ok trace ->
     (m, OutInput) ∉ trace) ->
  forall img, (generate_image self w layer idx size n lr be seed cb).1 <> Ok img.
Proof.
  intros Hn Hfresh img. unfold generate_image.
  pose proof (seed_generators_net w seed) as Hnet.
  destruct (seed_generators w seed) as [[[]|e] w0]; simpl in Hnet; [|done].
  destruct (size <? 0); [done|].
  destruct (Qlt_le_dec lr 0); [done|]. simpl.
  rewrite Hnet.
  destruct (_get_layer_by_name (net w) layer) as [target|] eqn:Hres; [|done].
  destruct (kind_of target) as [m cls tr| | | |] eqn:Hk; try done. simpl.
  rewrite (iterations_cons n Hn).
  match goal with
  | |- context [run_loop (loop_body ?w1 ?h _ _ _) _ ?st] =>
      assert (exists e, loop_body w1 h n be cb 0%nat st = Raise e) as [e He]
  end.
  { apply (loop_body_never_completes _ _ m).
    - simpl. by rewrite lookup_insert_eq.
    - done.
    - intros x trace Hx. eapply Hfresh; eauto. }
  rewrite (run_loop_first_raises _ _ _ _ e He). done.
Qed.


(** C7.  Whatever the call does (return an image or raise, before or after
    the tap was installed), the table of installed forward hooks is the same
    after it as before it. *)
Theorem tap_is_always_removed self w layer idx size n lr be seed cb :
  forward_hooks w !! next_handle w = None ->
  forward_hooks (generate_image self w layer idx size n lr be seed cb).2 = forward_hooks w.
Proof.
  intros Hfresh. unfold generate_image.
  pose proof (seed_generators_hooks w seed) as [Hh Hx].
  destruct (seed_generators w seed) as [[[]|e] w0]; simpl in Hh, Hx; [|done].
  destruct (size <? 0); [done|].
  destruct (Qlt_le_dec lr 0); [done|]. simpl.
  destruct (_get_layer_by_name (net w0) layer) as [target|]; [|done].
  destruct (kind_of target) as [m cls tr| | | |]; try done. simpl.
  rewrite Hh, Hx.
  destruct (run_loop _ _ _); simpl; by rewrite delete_insert_id.
Qed.

(** C4.  With a seed given, the outcome of a call (the raster, or the
    exception) is a function of the network and the arguments alone: it does
    not depend on the state of the generator, nor on the hooks table, in
    which the call is made. *)
Theorem seeded_runs_are_deterministic self w1 w2 layer idx size n lr be (s : Z) cb :
  net w1 = net w2 ->
  (generate_image self w1 layer idx size n lr be (Some s) cb).1 =
  (generate_image self w2 layer idx size n lr be (Some s) cb).1.
Proof.
  intros Hnet. unfold generate_image, seed_generators.
  destruct (_ || _); [done|]. destruct (_ || _); [done|]. simpl.
  destruct (size <? 0); [done|].
  destruct (Qlt_le_dec lr 0); [done|]. simpl.
  rewrite Hnet.
  destruct (_get_layer_by_name (net w2) layer) as [target|]; [|done].
  destruct (kind_of target) as [m cls tr| | | |]; try done. simpl.
  match goal with
  | |- context [run_loop (loop_body ?wa ?ha _ _ _) ?l ?st] =>
    match goal with
    | |- context [run_loop (loop_body ?wb ?hb _ _ _) l st] =>
        lazymatch wa with
        | wb => fail
        | _ => rewrite (run_loop_ext (loop_body wa ha n be cb) (loop_body wb hb n be cb) l st)
        end
    end
  end.
  - by destruct (run_loop _ _ _).
  - intros it st. apply loop_body_ext; simpl; [done|]. by rewrite !lookup_insert_eq.
Qed.

(** The call leaves the network object as it found it. *)
Lemma generate_image_net self w layer idx size n lr be seed cb :
  net (generate_image self w layer idx size n lr be seed cb).2 = net w.
Proof.
  unfold generate_image.
  pose proof (seed_generators_net w seed) as Hnet.
  destruct (seed_generators w seed) as [[[]|e] w0]; simpl in Hnet; [|done].
  destruct (size <? 0); [done|].
  destruct (Qlt_le_dec lr 0); [done|]. simpl.
  destruct (_get_layer_by_name (net w0) layer) as [target|]; [|done].
  destruct (kind_of target) as [m cls tr| | | |]; try done. simpl.
  by destruct (run_loop _ _ _).
Qed.

End EngineClaims.

(** ** Indexing out of range *)

Lemma py_index_out_of_range (c : nat) (i : Z) :
  Z.of_nat c <= i \/ i < - Z.of_nat c -> py_index c i = Raise IndexError.
Proof.
  intros H. unfold py_index.
  destruct (0 <=? i) eqn:E0, (i <? Z.of_nat c) eqn:E1, (i <? 0) eqn:E2,
    (- Z.of_nat c <=? i) eqn:E3; simpl; try reflexivity; exfalso; lia.
Qed.




(** ** Rounding is monotone *)


Lemma pow2_pos (e : Z) : (0 < pow2 e)%Q.
Proof. apply Qpower_0_lt. reflexivity. Qed.

Lemma pow2_add (a b : Z) : (pow2 (a + b) == pow2 a * pow2 b)%Q.
Proof. apply Qpower_plus. discriminate. Qed.

Lemma pow2_le (a b : Z) : a <= b -> (pow2 a <= pow2 b)%Q.
Proof. intros H. apply Qpower_le_compat_l; [exact H | discriminate]. Qed.

Lemma pow2_lt_inv (a b : Z) : (pow2 a < pow2 b)%Q -> a < b.
Proof. intros H. apply (Qpower_lt_compat_l_inv 2); [exact H | reflexivity]. Qed.

Lemma pow2_Z (k : Z) : 0 <= k -> (pow2 k == inject_Z (2 ^ k))%Q.
Proof. intros H. unfold pow2. symmetry. apply (Zpower_Qpower 2 k H). Qed.

Lemma ilog2_spec (x : Q) :
  (0 < x)%Q -> (pow2 (ilog2 x) <= x)%Q /\ (x < pow2 (ilog2 x + 1))%Q.
Proof.
  intros Hx. unfold ilog2.
  set (n := Qnum x). set (d := Z.pos (Qden x)).
  set (a := Z.log2 n). set (b := Z.log2 d).
  assert (Hn : 0 < n) by (unfold n; destruct x as [xn xd]; unfold Qlt in Hx; simpl in *; lia).
  assert (Hd : 0 < d) by (unfold d; lia).
  destruct (Z.log2_spec n Hn) as [Ha1 Ha2]. fold a in Ha1, Ha2.
  destruct (Z.log2_spec d Hd) as [Hb1 Hb2]. fold b in Hb1, Hb2.
  assert (Ha0 : 0 <= a) by apply Z.log2_nonneg.
  assert (Hb0 : 0 <= b) by apply Z.log2_nonneg.
  assert (Ex : (x * inject_Z d == inject_Z n)%Q).
  { unfold n, d. destruct x as [xn xd]. unfold Qeq, Qmult, inject_Z. simpl. lia. }
  assert (HD : (0 < inject_Z d)%Q) by (unfold Qlt, inject_Z; simpl; lia).
  (* integer bounds as rationals *)
  assert (A1 : (pow2 a <= inject_Z n)%Q).
  { rewrite (pow2_Z a Ha0). rewrite <- Zle_Qle. exact Ha1. }
  assert (A2 : (inject_Z n < pow2 (a + 1))%Q).
  { rewrite (pow2_Z (a + 1)) by lia. rewrite <- Zlt_Qlt. replace (a + 1) with (Z.succ a) by lia. exact Ha2. }
  assert (B1 : (pow2 b <= inject_Z d)%Q).
  { rewrite (pow2_Z b Hb0). rewrite <- Zle_Qle. exact Hb1. }
  assert (B2 : (inject_Z d < pow2 (b + 1))%Q).
  { rewrite (pow2_Z (b + 1)) by lia. rewrite <- Zlt_Qlt. replace (b + 1) with (Z.succ b) by lia. exact Hb2. }
  (* x < 2^(a-b+1) *)
  assert (U : (x < pow2 (a - b + 1))%Q).
  { pose proof (pow2_add (a - b + 1) b) as E. replace (a - b + 1 + b) with (a + 1) in E by lia.
    pose proof (pow2_pos (a - b + 1)) as P. pose proof (pow2_pos b) as P'.
    set (p := pow2 (a - b + 1)) in *. set (q := pow2 b) in *. set (r := pow2 (a + 1)) in *.
    set (D := inject_Z d) in *. set (N := inject_Z n) in *.
    nra. }
  (* 2^(a-b-1) <= x *)
  assert (L : (pow2 (a - b - 1) <= x)%Q).
  { pose proof (pow2_add (a - b - 1) (b + 1)) as E. replace (a - b - 1 + (b + 1)) with a in E by lia.
    pose proof (pow2_pos (a - b - 1)) as P. pose proof (pow2_pos (b + 1)) as P'.
    set (p := pow2 (a - b - 1)) in *. set (q := pow2 (b + 1)) in *. set (r := pow2 a) in *.
    set (D := inject_Z d) in *. set (N := inject_Z n) in *.
    nra. }
  destruct (Qle_bool (pow2 (a - b)) x) eqn:E.
  - apply Qle_bool_iff in E. split; [exact E | exact U].
  - split; [exact L|].
    replace (a - b - 1 + 1) with (a - b) by lia.
    apply Qnot_le_lt. intros H. apply Qle_bool_iff in H. congruence.
Qed.

Lemma round_half_even_bounds (x : Q) :
  Qfloor x <= round_half_even x <= Qfloor x + 1.
Proof.
  unfold round_half_even. destruct (Qcompare _ _); [destruct (Z.even _)| |]; lia.
Qed.

Lemma round_half_even_monotone (x y : Q) :
  (x <= y)%Q -> round_half_even x <= round_half_even y.
Proof.
  intros H. pose proof (Qfloor_resp_le _ _ H) as Hf.
  pose proof (round_half_even_bounds x) as Bx.
  pose proof (round_half_even_bounds y) as By.
  destruct (Z.eq_dec (Qfloor x) (Qfloor y)) as [E|NE]; [|lia].
  unfold round_half_even in *. rewrite <- E in *.
  destruct (Qcompare_spec (x - inject_Z (Qfloor x)) (1 # 2)) as [Hx|Hx|Hx];
    destruct (Qcompare_spec (y - inject_Z (Qfloor x)) (1 # 2)) as [Hy|Hy|Hy];
    try lia; try (destruct (Z.even (Qfloor x)); lia); exfalso; lra.
Qed.

Lemma round_half_even_Z (k : Z) : round_half_even (inject_Z k) = k.
Proof.
  unfold round_half_even. rewrite Qfloor_Z.
  destruct (Qcompare_spec (inject_Z k - inject_Z k) (1 # 2)) as [H|H|H]; [exfalso; lra | done | exfalso; lra].
Qed.

Lemma round_half_even_nonneg (x : Q) : (0 <= x)%Q -> 0 <= round_half_even x.
Proof.
  intros H. rewrite <- (round_half_even_Z 0). by apply round_half_even_monotone.
Qed.

Section Rounding.
Variables prec emin : Z.
Hypothesis prec_pos : 1 <= prec.

Lemma round_pos_nonneg (x : Q) : (0 < x)%Q -> (0 <= round_pos prec emin x)%Q.
Proof.
  intros Hx. unfold round_pos.
  set (q := Z.max (ilog2 x) emin - (prec - 1)).
  pose proof (pow2_pos q) as P.
  assert (H : 0 <= round_half_even (x / pow2 q)).
  { apply round_half_even_nonneg. apply Qle_shift_div_l; [exact P | lra]. }
  apply Qmult_le_0_compat; [|lra].
  replace 0%Q with (inject_Z 0) by reflexivity. by rewrite <- Zle_Qle.
Qed.

Lemma round_pos_monotone (x y : Q) :
  (0 < x)%Q -> (x <= y)%Q -> (round_pos prec emin x <= round_pos prec emin y)%Q.
Proof.
  intros Hx Hxy. assert (Hy : (0 < y)%Q) by lra.
  destruct (ilog2_spec x Hx) as [Lx Ux]. destruct (ilog2_spec y Hy) as [Ly Uy].
  assert (He : ilog2 x <= ilog2 y).
  { assert (ilog2 x < ilog2 y + 1); [|lia]. apply pow2_lt_inv. lra. }
  unfold round_pos.
  set (qx := Z.max (ilog2 x) emin - (prec - 1)).
  set (qy := Z.max (ilog2 y) emin - (prec - 1)).
  pose proof (pow2_pos qx) as Px. pose proof (pow2_pos qy) as Py.
  destruct (Z.eq_dec qx qy) as [E|NE].
  - rewrite <- E.
    apply Qmult_le_compat_r; [|lra].
    rewrite <- Zle_Qle. apply round_half_even_monotone.
    apply Qmult_le_compat_r; [exact Hxy|].
    apply Qlt_le_weak, Qinv_lt_0_compat, Px.
  - assert (Hq : qx + 1 <= qy) by lia.
    assert (Hey : Z.max (ilog2 y) emin = ilog2 y) by lia.
    (* the rounded x stays below 2^(qx + prec) *)
    assert (Bx : (inject_Z (round_half_even (x / pow2 qx)) * pow2 qx <= pow2 (qx + prec))%Q).
    { rewrite (pow2_add qx prec), (Qmult_comm (pow2 qx)).
      apply Qmult_le_compat_r; [|lra].
      rewrite (pow2_Z prec) by lia. rewrite <- Zle_Qle.
      rewrite <- (round_half_even_Z (2 ^ prec)). apply round_half_even_monotone.
      rewrite <- (pow2_Z prec) by lia.
      apply Qle_shift_div_r; [exact Px|].
      rewrite <- pow2_add.
      apply Qlt_le_weak. eapply Qlt_le_trans; [exact Ux|].
      apply pow2_le. lia. }
    (* the rounded y is at least 2^(qy + prec - 1) *)
    assert (By : (pow2 (qy + (prec - 1)) <= inject_Z (round_half_even (y / pow2 qy)) * pow2 qy)%Q).
    { rewrite (pow2_add qy (prec - 1)), (Qmult_comm (pow2 qy)).
      apply Qmult_le_compat_r; [|lra].
      rewrite (pow2_Z (prec - 1)) by lia. rewrite <- Zle_Qle.
      rewrite <- (round_half_even_Z (2 ^ (prec - 1))). apply round_half_even_monotone.
      rewrite <- (pow2_Z (prec - 1)) by lia.
      apply Qle_shift_div_l; [exact Py|].
      rewrite <- pow2_add.
      eapply Qle_trans; [|exact Ly].
      apply pow2_le. lia. }
    eapply Qle_trans; [exact Bx|]. eapply Qle_trans; [|exact By].
    apply pow2_le. lia.
Qed.

Lemma round_float_monotone (x y : Q) :
  (x <= y)%Q -> (round_float prec emin x <= round_float prec emin y)%Q.
Proof.
  intros H. unfold round_float.
  destruct (Qcompare_spec x 0) as [Hx|Hx|Hx]; destruct (Qcompare_spec y 0) as [Hy|Hy|Hy];
    try (exfalso; lra); try lra.
  - apply round_pos_nonneg. exact Hy.
  - pose proof (round_pos_nonneg (- x) ltac:(lra)). lra.
  - apply Qopp_le_compat. apply round_pos_monotone; lra.
  - pose proof (round_pos_nonneg (- x) ltac:(lra)).
    pose proof (round_pos_nonneg y Hy). lra.
  - apply round_pos_monotone; lra.
Qed.

End Rounding.

Lemma binary32_monotone (x y : Q) : (x <= y)%Q -> (binary32 x <= binary32 y)%Q.
Proof. apply round_float_monotone. lia. Qed.

(** ** The final conversion *)

Lemma flat_map_block_length {A : Type} (f : nat -> list A) (k n : nat) :
  (forall x, length (f x) = k) -> length (flat_map f (seq 0 n)) = (n * k)%nat.
Proof.
  intros Hk. induction n as [|n IH]; [done|].
  rewrite seq_S, flat_map_app, length_app, IH. simpl.
  rewrite app_nil_r, Hk. lia.
Qed.

Lemma flat_map_block_lookup {A : Type} (f : nat -> list A) (k n i r : nat) :
  (forall x, length (f x) = k) -> (i < n)%nat -> (r < k)%nat ->
  flat_map f (seq 0 n) !! (i * k + r)%nat = f i !! r.
Proof.
  intros Hk. induction n as [|n IH]; [lia|]. intros Hi Hr.
  rewrite seq_S, flat_map_app. simpl. rewrite app_nil_r.
  destruct (decide (i = n)) as [->|Hne].
  - rewrite lookup_app_r; rewrite (flat_map_block_length f k n Hk); [|lia].
    f_equal. lia.
  - rewrite lookup_app_l; [apply IH; lia|].
    rewrite (flat_map_block_length f k n Hk). nia.
Qed.

Lemma Qclamp_unit (x : Q) : (0 <= Qclamp 0 1 x <= 1)%Q.
Proof.
  unfold Qclamp. destruct (Qlt_le_dec x 0) as [H0|H0]; [split; [apply Qle_refl | discriminate]|].
  destruct (Qlt_le_dec 1 x) as [H1|H1]; [split; [discriminate | apply Qle_refl]|].
  split; done.
Qed.

Lemma Qtrunc_nonneg (x : Q) : (0 <= x)%Q -> Qtrunc x = Qfloor x.
Proof.
  destruct x as [a b]. unfold Qle, Qtrunc, Qfloor. simpl. intros H.
  apply Z.quot_div_nonneg; lia.
Qed.

Lemma Qtrunc_monotone (x y : Q) : (0 <= x)%Q -> (x <= y)%Q -> Qtrunc x <= Qtrunc y.
Proof.
  intros Hx Hxy. rewrite !Qtrunc_nonneg by lra. by apply Qfloor_resp_le.
Qed.

(** The [float32] product with 255 of a value in [0, 1] lies in [0, 255]. *)
Lemma scaled_range (y : Q) : (0 <= y <= 1)%Q -> (0 <= binary32 (y * 255) <= 255)%Q.
Proof.
  intros [H0 H1]. split.
  - change 0%Q with (binary32 0). apply binary32_monotone. lra.
  - apply Qle_trans with (binary32 255); [apply binary32_monotone; lra|].
    vm_compute. discriminate.
Qed.

Lemma Qtrunc_scaled_range (y : Q) :
  (0 <= y <= 1)%Q -> 0 <= Qtrunc (binary32 (y * 255)) <= 255.
Proof.
  intros Hy. destruct (scaled_range y Hy) as [H0 H1]. split.
  - apply (Qtrunc_monotone 0); lra.
  - apply (Qtrunc_monotone _ 255); lra.
Qed.

(** The cast of a scaled value is its truncation: no wrap-around occurs. *)
Lemma to_byte_truncates (c : nat) (x : Q) :
  to_byte c x = Qtrunc (binary32 (Qclamp 0 1 (denormalize c x) * 255)).
Proof.
  unfold to_byte, astype_uint8. apply Z.mod_small.
  pose proof (Qtrunc_scaled_range _ (Qclamp_unit (denormalize c x))).
  lia.
Qed.

Lemma to_byte_range (c : nat) (x : Q) : in_byte_range (to_byte c x).
Proof.
  unfold in_byte_range. rewrite to_byte_truncates.
  apply Qtrunc_scaled_range, Qclamp_unit.
Qed.

Lemma _tensor_to_image_length (t : Tensor) :
  length (pixels (_tensor_to_image t)) =
    (nth 2 (shape t) 0 * nth 3 (shape t) 0 * 3)%nat.
Proof.
  unfold _tensor_to_image. cbn [pixels].
  rewrite (flat_map_block_length _ (nth 3 (shape t) 0 * 3)%nat); [lia|].
  intros i. apply flat_map_block_length. intros j. by rewrite length_map, length_seq.
Qed.

Lemma _tensor_to_image_range (t : Tensor) :
  Forall in_byte_range (pixels (_tensor_to_image t)).
Proof.
  unfold _tensor_to_image. cbn [pixels].
  apply List.Forall_flat_map, List.Forall_forall. intros i _.
  apply List.Forall_flat_map, List.Forall_forall. intros j _.
  apply List.Forall_map, List.Forall_forall. intros c _. apply to_byte_range.
Qed.

Lemma _tensor_to_image_pixel (t : Tensor) (i j c : nat) :
  let h := nth 2 (shape t) 0%nat in
  let w := nth 3 (shape t) 0%nat in
  (i < h)%nat -> (j < w)%nat -> (c < 3)%nat ->
  pixels (_tensor_to_image t) !! ((i * w + j) * 3 + c)%nat =
    Some (Qtrunc (binary32
            (Qclamp 0 1 (denormalize c (at_ (data t) (c * h * w + i * w + j))) * 255))).
Proof.
  intros h w Hi Hj Hc. unfold _tensor_to_image. cbn [pixels]. fold h w.
  replace ((i * w + j) * 3 + c)%nat with (i * (w * 3) + (j * 3 + c))%nat by lia.
  rewrite (flat_map_block_lookup _ (w * 3) h i (j * 3 + c)); [| |done|nia].
  2:{ intros x. apply flat_map_block_length. intros y. by rewrite length_map, length_seq. }
  rewrite (flat_map_block_lookup _ 3 w j c); [| |done|done].
  2:{ intros y. by rewrite length_map, length_seq. }
  rewrite list_lookup_fmap, lookup_seq_lt by done. simpl.
  by rewrite to_byte_truncates.
Qed.

Section Conversion.
Context `{T : Torch}.

Lemma loop_body_shape w handle n be cb it st st' :
  loop_body w handle n be cb it st = Ok st' ->
  shape (ls_image st') = shape (ls_image st).
Proof.
  unfold loop_body. intros H.
  apply bind_ok in H as (trace & _ & H).
  apply bind_ok in H as (a & _ & H).
  apply bind_ok in H as (g & _ & H).
  apply bind_ok in H as (im & Him & H).
  apply bind_ok in H as (u & _ & H).
  injection H as <-. simpl.
  destruct (be =? 0); [discriminate|].
  destruct (_ =? 0); injection Him as <-; reflexivity.
Qed.

Lemma run_loop_shape w handle n be cb its st st' :
  run_loop (loop_body w handle n be cb) its st = Ok st' ->
  shape (ls_image st') = shape (ls_image st).
Proof.
  revert st. induction its as [|it its IH]; intros st; simpl.
  - by intros [= <-].
  - intros H. apply bind_ok in H as (st1 & H1 & H).
    rewrite (IH _ H). eapply loop_body_shape; eauto.
Qed.

(** An image that comes out of a call is the conversion of a tensor of the
    requested size. *)
Lemma generate_image_result self w layer idx size n lr be seed cb img :
  (generate_image self w layer idx size n lr be seed cb).1 = Ok img ->
  exists final : Tensor,
    shape final = [1; 3; Z.to_nat size; Z.to_nat size]%nat /\ img = _tensor_to_image final.
Proof.
  unfold generate_image.
  destruct (seed_generators w seed) as [[[]|e] w0]; [|done].
  destruct (size <? 0); [done|].
  destruct (Qlt_le_dec lr 0); [done|]. simpl.
  destruct (_get_layer_by_name (net w0) layer) as [target|]; [|done].
  destruct (kind_of target) as [m cls tr| | | |]; try done. simpl.
  destruct (run_loop _ _ _) as [st|e] eqn:E; simpl; [|done].
  intros [= <-]. exists (ls_image st). split; [|done].
  by rewrite (run_loop_shape _ _ _ _ _ _ _ _ E).
Qed.

End Conversion.

(** ** Induction over object graphs *)

Lemma pyobj_induction (P : pyobj -> Prop) :
  (forall k attrs, Forall (fun na => P na.2) attrs -> P (Obj k attrs)) ->
  forall o, P o.
Proof.
  intros H. fix IH 1. intros [k attrs]. apply H.
  induction attrs as [|[n c] l IHl]; constructor; [apply IH | apply IHl].
Qed.

Lemma init_keeps_everything_but_modes (device : string) (o : pyobj) :
  forget_modes (freeze_parameters (module_eval (module_to device o))) = forget_modes o.
Proof.
  induction o as [k attrs IH] using pyobj_induction.
  destruct k as [id cls tr|s rg dev|z| |]; simpl; try reflexivity.
  f_equal. rewrite !map_map. simpl.
  induction IH as [|[nm c] l Hc Hl IHl]; simpl; [done|].
  simpl in Hc. by rewrite Hc, IHl.
Qed.

Lemma settled_after_init (device : string) (o : pyobj) :
  settled device (freeze_parameters (module_eval (module_to device o))) = true.
Proof.
  induction o as [k attrs IH] using pyobj_induction.
  destruct k as [id cls tr|s rg dev|z| |]; simpl; try reflexivity.
  - rewrite !map_map. simpl. apply forallb_forall. intros na Hin.
    apply in_map_iff in Hin as (na0 & <- & Hin). simpl.
    rewrite Forall_forall in IH. apply IH. by apply list_elem_of_In.
  - by rewrite String.eqb_refl.
Qed.

Section RasterClaims.
Context `{T : Torch}.


(** A call that returns an image was made with arguments PyTorch accepts and
    a path that leads to a module. *)
Lemma generate_image_ok_inv self w layer idx size n lr be seed cb img :
  (generate_image self w layer idx size n lr be seed cb).1 = Ok img ->
  seed_in_range seed /\ 0 <= size /\ (0 <= lr)%Q /\
  exists target m cls tr,
    _get_layer_by_name (net w) layer = Some target /\ kind_of target = KModule m cls tr.
Proof.
  unfold generate_image.
  pose proof (seed_generators_net w seed) as Hnet.
  destruct (seed_generators w seed) as [[[]|e] w0] eqn:Hseed; simpl in Hnet; [|done].
  assert (Hs : seed_in_range seed).
  { revert Hseed. unfold seed_generators, seed_in_range. destruct seed as [s|]; [|done].
    destruct (Z.ltb_spec s (- 2 ^ 63)), (Z.leb_spec (2 ^ 64) s); simpl; try done.
    destruct (Z.ltb_spec s 0), (Z.leb_spec (2 ^ 32) s); simpl; try done. }
  destruct (size <? 0) eqn:Hsz; [done|]. apply Z.ltb_ge in Hsz.
  destruct (Qlt_le_dec lr 0) as [|Hlr]; [done|]. cbn [net]. rewrite Hnet.
  destruct (_get_layer_by_name (net w) layer) as [target|]; [|done].
  destruct (kind_of target) as [m cls tr| | | |] eqn:Hk; try done.
  intros _. repeat split; try done. by exists target, m, cls, tr.
Qed.


(** C5 (as the code has it).  An image a call returns is the conversion,
    made once, of the image tensor the loop ended with (the initial random
    image when no iteration ran): [imageSize * imageSize * 3] values, each
    in [0, 255], the value at row [i], column [j], channel [c] being the
    denormalized pixel clamped to [0, 1], multiplied by 255 in [float32] and
    truncated toward zero.  (A completed iteration on an image of size
    below 2 makes the image non-finite, which is outside the embedding.) *)
Theorem final_raster_is_truncated self w layer idx size n lr be seed cb img :
  (generate_image self w layer idx size n lr be seed cb).1 = Ok img ->
  2 <= size \/ n <= 0 ->
  let s := Z.to_nat size in
  exists (target : pyobj) (m : nat) (cls : layer_class) (tr : bool) (st : LoopState),
    _get_layer_by_name (net w) layer = Some target /\
    kind_of target = KModule m cls tr /\
    run_loop (loop_body (register_forward_hook w m).2 (next_handle w) n be cb)
             (seq 0 (Z.to_nat n)) (start_state w seed size lr idx) = Ok st /\
    shape (ls_image st) = [1; 3; s; s]%nat /\
    img = _tensor_to_image (ls_image st) /\
    height img = s /\ width img = s /\
    length (pixels img) = (s * s * 3)%nat /\
    Forall in_byte_range (pixels img) /\
    forall i j c, (i < s)%nat -> (j < s)%nat -> (c < 3)%nat ->
      pixels img !! ((i * s + j) * 3 + c)%nat =
        Some (Qtrunc (binary32
                (Qclamp 0 1
                   (denormalize c (at_ (data (ls_image st)) (c * s * s + i * s + j))) * 255))).
Proof.
  intros H _ s.
  destruct (generate_image_ok_inv _ _ _ _ _ _ _ _ _ _ _ H)
    as (Hs & Hsz & Hlr & target & m & cls & tr & Hres & Hk).
  rewrite (generate_image_runs_loop self w layer idx size n lr be seed cb target m cls tr)
    in H; try done.
  destruct (run_loop _ _ _) as [st|e] eqn:E; [|done]. injection H as <-.
  exists target, m, cls, tr, st.
  assert (Hshape : shape (ls_image st) = [1; 3; s; s]%nat).
  { by rewrite (run_loop_shape _ _ _ _ _ _ _ _ E). }
  assert (H2 : nth 2 (shape (ls_image st)) 0%nat = s) by (by rewrite Hshape).
  assert (H3 : nth 3 (shape (ls_image st)) 0%nat = s) by (by rewrite Hshape).
  split; [done|]. split; [done|]. split; [done|]. split; [done|]. split; [done|].
  split; [done|]. split; [done|]. split; [|split].
  - by rewrite _tensor_to_image_length, H2, H3.
  - apply _tensor_to_image_range.
  - intros i j c Hi Hj Hc.
    pose proof (_tensor_to_image_pixel (ls_image st) i j c) as Hp. cbv zeta in Hp.
    rewrite H2, H3 in Hp. by apply Hp.
Qed.

(** C8 (as the code has it).  Constructing the engine changes the network's
    modes, and nothing else: afterwards every module is in evaluation mode
    and every parameter is frozen and placed on the device, and the network
    is otherwise the object it was.  A call of [generate_image] leaves the
    network object as it found it. *)
Theorem engine_changes_only_modes (w : World) (device : string) :
  settled device (net (FeatureVisualizer_init w device).2) = true /\
  forget_modes (net (FeatureVisualizer_init w device).2) = forget_modes (net w) /\
  forall self layer idx size n lr be seed cb,
    net (generate_image self w layer idx size n lr be seed cb).2 = net w.
Proof.
  split; [|split].
  - apply settled_after_init.
  - apply init_keeps_everything_but_modes.
  - intros. apply generate_image_net.
Qed.

End RasterClaims.

(** ** Unit names *)

(** C9 (as the code has it).  An unknown path gives no names.  A dense layer
    gives [neuron_0 .. neuron_(out_features - 1)].  A 2-d convolution gives
    [channel_0 .. channel_(out_channels - 1)].  Any other layer gives
    [unit_<i>] names, at most 768 of them, counted by [out_features] when the
    layer has it and by the leading dimension of its weight otherwise;
    [out_channels] is not consulted there. *)
Theorem get_neuron_names_by_layer_kind (self : LayerInspector) (path : string) :
  (get_layer self path = None -> get_neuron_names self path = Ok []) /\
  (forall id tr attrs n,
     get_layer self path = Some (Obj (KModule id Linear tr) attrs) ->
     lookup_attr "out_features" attrs = Some (int_obj n) ->
     get_neuron_names self path
       = Ok (map (fun i => "neuron_" +:+ str_of_nat i) (seq 0 (Z.to_nat n)))) /\
  (forall id tr attrs c rest rg dev wattrs,
     get_layer self path = Some (Obj (KModule id Conv2d tr) attrs) ->
     lookup_attr "out_features" attrs = None ->
     lookup_attr "weight" attrs = Some (Obj (KParam (c :: rest) rg dev) wattrs) ->
     lookup_attr "out_channels" attrs = Some (int_obj (Z.of_nat c)) ->
     get_neuron_names self path
       = Ok (map (fun i => "channel_" +:+ str_of_nat i) (seq 0 c))) /\
  (forall id tr attrs n,
     get_layer self path = Some (Obj (KModule id OtherModule tr) attrs) ->
     lookup_attr "out_features" attrs = Some (int_obj n) ->
     get_neuron_names self path
       = Ok (map (fun i => "unit_" +:+ str_of_nat i) (seq 0 (Z.to_nat (Z.min n 768))))) /\
  (forall id tr attrs d rest rg dev wattrs,
     get_layer self path = Some (Obj (KModule id OtherModule tr) attrs) ->
     lookup_attr "out_features" attrs = None ->
     lookup_attr "weight" attrs = Some (Obj (KParam (d :: rest) rg dev) wattrs) ->
     get_neuron_names self path
       = Ok (map (fun i => "unit_" +:+ str_of_nat i) (seq 0 (Nat.min d 768)))).
Proof.
  unfold get_neuron_names. repeat split.
  - by intros ->.
  - intros id tr attrs n -> Hn. cbn [kind_of].
    unfold num_neurons_of, getattr. cbn [attrs_of]. rewrite Hn. cbn [bind].
    destruct n; reflexivity.
  - intros id tr attrs c rest rg dev wattrs -> Hf Hw Hc. cbn [kind_of].
    unfold num_neurons_of, getattr. cbn [attrs_of]. rewrite Hf, Hw. cbn [kind_of bind].
    destruct c as [|c']; [reflexivity|].
    cbn [is_int_zero kind_of Z.of_nat]. rewrite Hc.
    unfold py_range, int_obj. cbn [kind_of bind]. by rewrite Nat2Z.id.
  - intros id tr attrs n -> Hn. cbn [kind_of].
    unfold num_neurons_of, getattr. cbn [attrs_of]. rewrite Hn. cbn [bind].
    destruct n; reflexivity.
  - intros id tr attrs d rest rg dev wattrs -> Hf Hw. cbn [kind_of].
    unfold num_neurons_of, getattr. cbn [attrs_of]. rewrite Hf, Hw. cbn [kind_of bind].
    destruct d as [|d']; [reflexivity|].
    cbn [is_int_zero kind_of Z.of_nat].
    unfold py_range_min768. cbn [kind_of bind].
    do 3 f_equal. lia.
Qed.

(** ** Dotted paths *)

Lemma split_dot_nonempty (s : string) : split_dot s <> [].
Proof.
  induction s as [|c s IH]; simpl; [done|].
  destruct (Ascii.eqb c "."); [done|]. by destruct (split_dot s).
Qed.

Lemma split_dot_no_dot (s : string) : has_dot s = false -> split_dot s = [s].
Proof.
  induction s as [|c s IH]; simpl; [done|].
  destruct (Ascii.eqb c "."); simpl; [done|]. intros H. by rewrite (IH H).
Qed.

Lemma split_dot_app_dot (s q : string) :
  has_dot q = false -> split_dot (s +:+ "." +:+ q) = split_dot s ++ [q].
Proof.
  intros Hq. induction s as [|c s IH]; simpl.
  - change ("" +:+ q) with q. by rewrite (split_dot_no_dot q Hq).
  - destruct (Ascii.eqb c ".").
    + by rewrite IH.
    + rewrite IH. pose proof (split_dot_nonempty s). by destruct (split_dot s).
Qed.

Lemma join_path_snoc (ps : list string) (q : string) :
  join_path (ps ++ [q]) = submodule_prefix (join_path ps) q.
Proof. unfold join_path. by rewrite fold_left_app. Qed.

Lemma valid_name_spec (s : string) :
  valid_name s = true -> s <> "" /\ has_dot s = false.
Proof.
  unfold valid_name. intros H. apply andb_true_iff in H as [H1 H2].
  apply negb_true_iff in H1, H2. split; [|done].
  by apply String.eqb_neq.
Qed.

Lemma append_nonempty_r (a b : string) : b <> "" -> a +:+ b <> "".
Proof. destruct a; simpl; [done|discriminate]. Qed.

Lemma join_path_nonempty (ps : list string) :
  Forall (fun p => valid_name p = true) ps -> ps <> [] -> join_path ps <> "".
Proof.
  induction ps as [|q ps IH] using rev_ind; [done|]. intros Hv _.
  apply Forall_app in Hv as [Hps Hq]. apply List.Forall_inv in Hq.
  apply valid_name_spec in Hq as [Hq _].
  rewrite join_path_snoc. unfold submodule_prefix.
  destruct (String.eqb (join_path ps) ""); [done|].
  apply append_nonempty_r. simpl. discriminate.
Qed.

Lemma split_dot_join_path (ps : list string) :
  Forall (fun p => valid_name p = true) ps -> ps <> [] -> split_dot (join_path ps) = ps.
Proof.
  induction ps as [|q ps IH] using rev_ind; [done|]. intros Hv _.
  apply Forall_app in Hv as [Hps Hq]. apply List.Forall_inv in Hq.
  apply valid_name_spec in Hq as [Hq Hd].
  rewrite join_path_snoc. unfold submodule_prefix.
  destruct (decide (ps = [])) as [->|Hne].
  - simpl. by apply split_dot_no_dot.
  - pose proof (join_path_nonempty ps Hps Hne) as Hj.
    apply String.eqb_neq in Hj. rewrite Hj.
    rewrite split_dot_app_dot by done. by rewrite IH.
Qed.

(** ** Attribute lookup in well-formed objects *)

Lemma lookup_attr_elem (name : string) (o : pyobj) (attrs : list (string * pyobj)) :
  lookup_attr name attrs = Some o -> (name, o) ∈ attrs.
Proof.
  induction attrs as [|[n c] l IH]; simpl; [done|].
  destruct (String.eqb n name) eqn:E.
  - intros [= ->]. apply String.eqb_eq in E as ->. left.
  - intros H. right. by apply IH.
Qed.

Lemma lookup_attr_NoDup (name : string) (o : pyobj) (attrs : list (string * pyobj)) :
  NoDup (map fst attrs) -> (name, o) ∈ attrs -> lookup_attr name attrs = Some o.
Proof.
  induction attrs as [|[n c] l IH]; simpl; [by intros _ ?%elem_of_nil|].
  intros Hnd Hin. apply NoDup_cons in Hnd as [Hn Hnd].
  apply elem_of_cons in Hin as [[= <- <-]|Hin].
  - by rewrite String.eqb_refl.
  - destruct (String.eqb n name) eqn:E; [|by apply IH].
    apply String.eqb_eq in E as ->. exfalso. apply Hn.
    apply list_elem_of_fmap. by exists (name, o).
Qed.

Lemma wf_obj_attrs (k : pykind) (attrs : list (string * pyobj)) :
  wf_obj (Obj k attrs) = true ->
  NoDup (map fst attrs) /\
  forall na, na ∈ attrs ->
    (is_module na.2 = true -> valid_name na.1 = true) /\ wf_obj na.2 = true.
Proof.
  simpl. intros H. apply andb_true_iff in H as [H1 H2].
  apply bool_decide_eq_true in H1. split; [done|].
  intros na Hin. rewrite forallb_forall in H2.
  apply list_elem_of_In, H2 in Hin. apply andb_true_iff in Hin as [Ha Hb].
  split; [|done]. intros Hm. by rewrite Hm in Ha.
Qed.

(** ** [named_modules] lists modules under the path that reaches them *)

Lemma named_modules_below_elem prefix attrs :
  forall acc x,
  x ∈ (fold_left (fun acc na =>
                    let sub := named_modules (snd acc) (submodule_prefix prefix (fst na)) (snd na) in
                    (fst acc ++ fst sub, snd sub)) attrs acc).1 ->
  x ∈ acc.1 \/
  exists na memo, na ∈ attrs /\
    x ∈ (named_modules memo (submodule_prefix prefix na.1) na.2).1.
Proof.
  induction attrs as [|na attrs IH]; intros acc x; simpl; [by left|].
  intros H. apply IH in H as [H|(na' & memo & Hin & H)].
  - simpl in H. apply elem_of_app in H as [H|H]; [by left|].
    right. exists na, acc.2. split; [left|done].
  - right. exists na', memo. split; [by right|done].
Qed.

Lemma named_modules_sound (o : pyobj) :
  wf_obj o = true ->
  forall memo pre name m,
    (name, m) ∈ (named_modules memo (join_path pre) o).1 ->
    exists parts,
      name = join_path (pre ++ parts) /\
      resolve_parts parts o = Some m /\
      Forall (fun p => valid_name p = true) parts /\
      is_module m = true.
Proof.
  induction o as [k attrs IH] using pyobj_induction. intros Hwf memo pre name m.
  apply wf_obj_attrs in Hwf as [Hnd Hattrs].
  destruct k as [id cls tr| | | |]; simpl; try by intros ?%elem_of_nil.
  case_bool_decide; simpl; [by intros ?%elem_of_nil|].
  intros Hin. apply elem_of_cons in Hin as [[= -> ->]|Hin].
  - exists []. rewrite app_nil_r. repeat split; done.
  - apply named_modules_below_elem in Hin as [Hin|(na & memo' & Hna & Hin)];
      [by apply elem_of_nil in Hin|].
    destruct (Hattrs na Hna) as [Hvalid Hwfc].
    rewrite Forall_forall in IH. specialize (IH na Hna Hwfc memo' (pre ++ [na.1]) name m).
    rewrite join_path_snoc in IH. destruct (IH Hin) as (parts & -> & Hres & Hv & Hm).
    assert (Hc : is_module na.2 = true).
    { destruct na as [n [kc ac]]. simpl in *. destruct kc; simpl in Hin |- *; try done;
        by apply elem_of_nil in Hin. }
    exists (na.1 :: parts). rewrite <- app_assoc. repeat split; try done.
    + simpl. unfold getattr. simpl.
      rewrite (lookup_attr_NoDup na.1 na.2 attrs Hnd); [done|]. by destruct na.
    + constructor; [by apply Hvalid | done].
Qed.

(** ** The directory *)

Lemma record_layers_lookup (l : list (string * pyobj)) :
  forall (layers : gmap string pyobj) key v,
  fold_left record_layer l layers !! key = Some v ->
  layers !! key = Some v \/
  exists name, (name, v) ∈ l /\ key = "visual." +:+ name /\ name <> "".
Proof.
  induction l as [|[name m] l IH]; intros layers key v; simpl; [by left|].
  intros H. apply IH in H as [H|(name' & Hin & -> & Hne)].
  - unfold record_layer in H. simpl in H.
    destruct (negb (String.eqb name "") && negb (startswith_underscore name)) eqn:E; [|by left].
    apply andb_true_iff in E as [E _]. apply negb_true_iff, String.eqb_neq in E.
    destruct (decide (key = "visual." +:+ name)) as [->|Hk].
    + rewrite lookup_insert_eq in H. injection H as ->.
      right. exists name. repeat split; [left | done].
    + rewrite lookup_insert_ne in H by done. by left.
  - right. exists name'. repeat split; [by right | done].
Qed.

Lemma get_layer_names_elem (self : LayerInspector) (path : string) :
  path ∈ get_layer_names self <-> is_Some (get_layer self path).
Proof.
  unfold get_layer_names, get_layer. rewrite merge_sort_Permutation.
  rewrite list_elem_of_fmap. split.
  - intros ([k v] & -> & H). apply elem_of_map_to_list in H. by exists v.
  - intros [v H]. exists (path, v). split; [done|]. by apply elem_of_map_to_list.
Qed.

(** Every layer the directory knows is reached by the engine's attribute
    walk, which ends at the very module the directory recorded. *)
Lemma directory_layers_resolve (model : pyobj) (name : string) (self : LayerInspector)
    (path : string) (layer : pyobj) :
  wf_obj model = true ->
  LayerInspector_init model name = Ok self ->
  get_layer self path = Some layer ->
  _get_layer_by_name model path = Some layer /\ is_module layer = true.
Proof.
  intros Hwf Hinit Hget. unfold LayerInspector_init in Hinit.
  apply bind_ok in Hinit as (layers & Hex & [= <-]).
  unfold get_layer in Hget. cbn [layers_info] in Hget.
  unfold _extract_layers in Hex.
  destruct (getattr model "visual") as [visual|] eqn:Hv; [|done].
  assert (Hl : layers = fold_left record_layer (named_modules [] "" visual).1 ∅).
  { destruct visual as [[] ?]; try done. by injection Hex as <-. }
  subst layers. clear Hex.
  destruct (record_layers_lookup _ _ _ _ Hget) as [He|(nm & Hin & -> & Hne)]; [done|].
  destruct model as [km am]. apply wf_obj_attrs in Hwf as [Hnd Hattrs].
  unfold getattr in Hv. cbn [attrs_of] in Hv.
  destruct (Hattrs _ (lookup_attr_elem _ _ _ Hv)) as [_ Hwfv]. cbn [snd] in Hwfv.
  destruct (named_modules_sound _ Hwfv [] [] nm layer Hin) as (parts & -> & Hres & Hvalid & Hm).
  split; [|done].
  assert (Hparts : parts <> []) by (intros ->; by apply Hne).
  unfold _get_layer_by_name.
  assert (Hsplit : split_dot ("visual." +:+ join_path ([] ++ parts)) = "visual" :: parts).
  { rewrite <- (split_dot_join_path parts Hvalid Hparts) at 2. reflexivity. }
  rewrite Hsplit. cbn [resolve_parts]. unfold getattr. cbn [attrs_of].
  by rewrite Hv.
Qed.


(** The errors of an iteration are not the engine's "not found". *)
Lemma index_error_not_layer_not_found (i : Z) (layer : string) :
  index_error i <> ValueError (layer_not_found layer).
Proof.
  unfold index_error, overflow_error, layer_not_found.
  destruct (_ && _); [done|]. by intros [= H _].
Qed.

Lemma get_activation_value_error (h : NeuronActivationHook) (e : exn) (layer : string) :
  get_activation_value h = Raise e -> e <> ValueError (layer_not_found layer).
Proof.
  unfold get_activation_value.
  destruct (activation h) as [[t|]|]; [| by intros [= <-] | done].
  assert (Hs : forall i x, select_dim1 t i = Raise x -> x <> ValueError (layer_not_found layer)).
  { intros i x. unfold select_dim1. destruct (shape t) as [|b [|c rest]]; try by intros [= <-].
    unfold tensor_index. destruct (py_index c i); [done|]. intros [= <-].
    apply index_error_not_layer_not_found. }
  assert (Hm : forall x, mean_dim1 t = Raise x -> x <> ValueError (layer_not_found layer)).
  { intros x. unfold mean_dim1. destruct (shape t) as [|b [|c rest]]; by intros [= <-]. }
  destruct (length (shape t) =? 4)%nat; [|destruct (length (shape t) =? 2)%nat].
  - destruct (neuron_index h) as [i|].
    + destruct (select_dim1 t i) eqn:E; [done|]. intros [= <-]. eauto.
    + destruct (mean_dim1 t) eqn:E; [done|]. intros [= <-]. eauto.
  - destruct (neuron_index h) as [i|].
    + destruct (select_dim1 t i) eqn:E; [done|]. intros [= <-]. eauto.
    + destruct (mean_dim1 t) eqn:E; [done|]. intros [= <-]. eauto.
  - done.
Qed.

Section Resolution.
Context `{T : Torch}.

Lemma loop_body_error w handle n be cb it st e layer :
  loop_body w handle n be cb it st = Raise e -> e <> ValueError (layer_not_found layer).
Proof.
  unfold loop_body.
  destruct (model_visual w (normalize (ls_image st))) as [trace|e0] eqn:Hf; cbn [bind].
  2:{ intros [= <-]. unfold model_visual in Hf.
      destruct (getattr (net w) "visual"); [|by injection Hf as <-].
      destruct (visual_forward _ _); [done|]. by injection Hf as <-. }
  destruct (get_activation_value _) as [a|e0] eqn:Ha; cbn [bind].
  2:{ intros [= <-]. eapply get_activation_value_error; eauto. }
  unfold backward. destruct (requires_grad (tensor_neg a)); cbn [bind]; [|by intros [= <-]].
  destruct (be =? 0); cbn [bind]; [by intros [= <-]|].
  destruct (_ =? 0); cbn [bind].
  - destruct cb as [f|]; cbn [bind]; [|done].
    destruct (_ =? 0); [|done]. unfold call_progress.
    destruct (f _ _ _); cbn [bind]; [by intros [= <-] | done].
  - destruct cb as [f|]; cbn [bind]; [|done].
    destruct (_ =? 0); [|done]. unfold call_progress.
    destruct (f _ _ _); cbn [bind]; [by intros [= <-] | done].
Qed.

Lemma run_loop_error w handle n be cb its st e layer :
  run_loop (loop_body w handle n be cb) its st = Raise e ->
  e <> ValueError (layer_not_found layer).
Proof.
  revert st. induction its as [|it its IH]; intros st; simpl; [done|].
  destruct (loop_body w handle n be cb it st) as [st'|e0] eqn:E; cbn [bind].
  - apply IH.
  - intros [= <-]. eapply loop_body_error; eauto.
Qed.



End Resolution.

(** ** The statements at work on the small network *)

(** Membership in an explicit list, refuted entry by entry. *)
Ltac not_in_list :=
  let H := fresh "H" in
  intros H;
  repeat (apply elem_of_cons in H as [H|H]; [discriminate H|]);
  by apply elem_of_nil in H.

Lemma toy_forward_trace (w : @World Toy.torch) (x : Tensor) trace :
  net w = net Toy.ready ->
  @model_visual Toy.torch w x = Ok trace ->
  trace = [ (5, OutInput);
            (2, OutFresh [1; 2; 1; 1] [at_ (data x) 0; Qsum (data x)]);
            (3, OutFresh [1; 1; 2] [Qsum (data x); Qsum (data x) + 1]%Q);
            (6, OutOther);
            (12, OutFresh [2; 1; 2] [Qsum (data x); 1; 2; 3]%Q);
            (11, OutFresh [2; 1; 2] [Qsum (data x); 1; 2; 3]%Q);
            (10, OutFresh [2; 1; 2] [Qsum (data x); 1; 2; 3]%Q);
            (9, OutFresh [2; 1; 2] [Qsum (data x); 1; 2; 3]%Q);
            (4, OutFresh [1; 3] [1; Qsum (data x); 2]%Q);
            (7, OutFresh [1; 5; 1; 1] [Qsum (data x); 1; 2; 3; 4]%Q);
            (1, OutFresh [1; 3] [Qsum (data x); 0; 1]%Q) ]%nat.
Proof.
  intros Hn. unfold model_visual. rewrite Hn. by intros [= <-].
Qed.

(** C1 at a failing input: one iteration on [visual.conv1]. *)
Lemma conv1_run_raises_at_backward :
  (Toy.run Toy.ready "visual.conv1" (Some 0) 2 1 (Some 42)).1
    = Raise (RuntimeError no_grad_msg).
Proof. vm_compute. reflexivity. Qed.

Lemma gradient_never_reaches_image_witness :
  0 < 1 /\
  forall img, (Toy.run Toy.ready "visual.conv1" (Some 0) 2 1 (Some 42)).1 <> Ok img.
Proof.
  split; [lia|].
  apply (@gradient_never_reaches_image Toy.torch); [lia|].
  intros target m cls tr x trace Hres Hk Hf.
  vm_compute in Hres. injection Hres as <-. injection Hk as <- _ _.
  rewrite (toy_forward_trace Toy.ready x trace eq_refl Hf).
  not_in_list.
Defined.



(** Nor is [image_size = 0] refused: the image drawn is empty, and so is the
    raster made from it. *)
Lemma zero_size_returns_an_empty_image :
  (Toy.run Toy.ready "visual.conv1" (Some 0) 0 0 (Some 42)).1 = Ok (mkImage 0 0 []).
Proof. vm_compute. reflexivity. Qed.


(** C3 as stated fails: a rank-3 output yields an activation scalar. *)
Lemma rank3_output_gives_a_scalar :
  get_activation_value
    (mkHook (Some 7) (Some (PyTensor (mkTensor [2; 1; 2]%nat [1; 2; 3; 6]%Q false))))
  = Ok (mkTensor [] [12 # 4]%Q false).
Proof. vm_compute. reflexivity. Qed.

Lemma other_rank_activation_is_global_mean_witness :
  get_activation_value
    (mkHook (Some 7) (Some (PyTensor (mkTensor [2; 1; 2]%nat [1; 2; 3; 6]%Q false))))
  = Ok (tensor_mean (mkTensor [2; 1; 2]%nat [1; 2; 3; 6]%Q false)).
Proof.
  apply other_rank_activation_is_global_mean; [reflexivity | simpl; lia | simpl; lia].
Defined.

(** C4 on two worlds that differ in generator state and hooks table. *)
Lemma seeded_runs_are_deterministic_witness :
  net Toy.ready = net Toy.other_world /\
  (Toy.run Toy.ready "visual.pre" (Some 0) 2 1 (Some 42)).1
    = (Toy.run Toy.other_world "visual.pre" (Some 0) 2 1 (Some 42)).1.
Proof.
  split; [reflexivity|].
  apply (@seeded_runs_are_deterministic Toy.torch). reflexivity.
Defined.

(** Without a seed the outcome follows the ambient generator state. *)
Lemma unseeded_runs_depend_on_the_generator :
  (Toy.run Toy.ready "visual.pre" (Some 0) 2 0 None).1
    <> (Toy.run Toy.other_world "visual.pre" (Some 0) 2 0 None).1.
Proof. vm_compute. discriminate. Qed.

(** C5 as stated fails: the cast truncates where rounding would go up. *)
Lemma zero_pixel_is_truncated_not_rounded :
  pixels (_tensor_to_image (mkTensor [1; 3; 1; 1]%nat [0; 0; 0]%Q false)) = [122; 116; 104]
  /\ map (fun c => rounded_byte c 0) [0; 1; 2]%nat = [123; 117; 104].
Proof.
  split.
  - vm_compute. reflexivity.
  - vm_compute. reflexivity.
Qed.

(** The conversion rounds every operation to [float32] before it truncates:
    a red value whose exact scaled product lies just below 151 comes out
    as 151. *)
Lemma float32_product_decides_the_byte :
  to_byte 0 (216059 # 524288) = 151 /\
  Qtrunc (Qclamp 0 1 ((216059 # 524288) * at_ clip_std 0 + at_ clip_mean 0) * 255) = 150.
Proof. split; vm_compute; reflexivity. Qed.

Lemma final_raster_is_truncated_witness :
  exists st : @LoopState Toy.torch,
    run_loop (loop_body (register_forward_hook Toy.ready 5).2 (next_handle Toy.ready) 1 10 None)
             (seq 0 1) (start_state Toy.ready (Some 42) 2 (1 # 100) (Some 0)) = Ok st /\
    mkImage 2 2 [122; 82; 33; 156; 116; 68; 190; 149; 103; 53; 182; 138]
      = _tensor_to_image (ls_image st).
Proof.
  destruct (@final_raster_is_truncated Toy.torch Toy.visualizer Toy.ready "visual.pre"
              (Some 0) 2 1 (1 # 100) 10 (Some 42) None
              (mkImage 2 2 [122; 82; 33; 156; 116; 68; 190; 149; 103; 53; 182; 138]))
    as (target & m & cls & tr & st & Hres & Hk & Hrun & _ & Himg & _).
  - vm_compute. reflexivity.
  - left. lia.
  - vm_compute in Hres. injection Hres as <-. injection Hk as <- _ _.
    exists st. split; assumption.
Defined.



(** C7 on a run that raises after the tap was installed. *)
Lemma tap_is_always_removed_witness :
  forward_hooks Toy.other_world !! next_handle Toy.other_world = None /\
  forward_hooks (Toy.run Toy.other_world "visual.conv1" (Some 2) 2 1 (Some 42)).2
    = forward_hooks Toy.other_world.
Proof.
  split; [reflexivity|].
  apply (@tap_is_always_removed Toy.torch). reflexivity.
Defined.

(** C8 as stated fails: constructing the engine changes the network. *)
Lemma construction_changes_the_network :
  net (@FeatureVisualizer_init Toy.torch Toy.world "cpu").2 <> net Toy.world /\
  getattr (net Toy.world) "visual" <> None /\
  kind_of (net Toy.world) = KModule 0 OtherModule true /\
  kind_of (net (@FeatureVisualizer_init Toy.torch Toy.world "cpu").2)
    = KModule 0 OtherModule false.
Proof.
  split; [|split; [|split]].
  - vm_compute. discriminate.
  - vm_compute. discriminate.
  - vm_compute. reflexivity.
  - vm_compute. reflexivity.
Qed.

(** C9 as stated fails: for a transposed convolution the names are counted
    by the weight's leading dimension (3), not by [out_channels] (5). *)
Lemma transposed_convolution_units :
  get_layer Toy.inspector "visual.up" <> None /\
  (declared_axis_size <$> get_layer Toy.inspector "visual.up") = Some (Some 5) /\
  get_neuron_names Toy.inspector "visual.up" = Ok ["unit_0"; "unit_1"; "unit_2"].
Proof.
  split; [|split].
  - vm_compute. discriminate.
  - vm_compute. reflexivity.
  - vm_compute. reflexivity.
Qed.

Lemma get_neuron_names_by_layer_kind_witness :
  get_neuron_names Toy.inspector "visual.fc"
    = Ok (map (fun i => "neuron_" +:+ str_of_nat i) (seq 0 3)) /\
  get_neuron_names Toy.inspector "visual.conv1"
    = Ok (map (fun i => "channel_" +:+ str_of_nat i) (seq 0 2)) /\
  get_neuron_names Toy.inspector "visual.up"
    = Ok (map (fun i => "unit_" +:+ str_of_nat i) (seq 0 (Nat.min 3 768))) /\
  get_neuron_names Toy.inspector "visual.nothing" = Ok [].
Proof.
  split; [|split; [|split]].
  - destruct (get_neuron_names_by_layer_kind Toy.inspector "visual.fc") as (_ & H & _).
    refine (H 4%nat false _ 3 _ _); vm_compute; reflexivity.
  - destruct (get_neuron_names_by_layer_kind Toy.inspector "visual.conv1") as (_ & _ & H & _).
    refine (H 2%nat false _ 2%nat _ _ _ _ _ _ _ _); vm_compute; reflexivity.
  - destruct (get_neuron_names_by_layer_kind Toy.inspector "visual.up") as (_ & _ & _ & _ & H).
    refine (H 7%nat false _ 3%nat _ _ _ _ _ _ _); vm_compute; reflexivity.
  - destruct (get_neuron_names_by_layer_kind Toy.inspector "visual.nothing") as (H & _).
    apply H. vm_compute. reflexivity.
Defined.

(** * Further properties of the engine, the directory and the callers *)

(** ** Dotted paths compose *)

Lemma split_dot_app (a b : string) :
  split_dot (a +:+ "." +:+ b) = split_dot a ++ split_dot b.
Proof.
  induction a as [|c a IH]; simpl.
  - reflexivity.
  - destruct (Ascii.eqb c ".").
    + by rewrite IH.
    + rewrite IH. pose proof (split_dot_nonempty a). by destruct (split_dot a).
Qed.

Lemma resolve_parts_app (p q : list string) (o : pyobj) :
  resolve_parts (p ++ q) o =
    match resolve_parts p o with
    | Some m => resolve_parts q m
    | None => None
    end.
Proof.
  revert o. induction p as [|x p IH]; intros o; simpl; [done|].
  destruct (getattr o x); [apply IH | done].
Qed.

(** X1: the attribute walk for a dotted path [a.b] is the walk for [a]
    continued with [b] from the object reached, whatever that object is
    ([None] included); the walk for [a.b] hits a missing attribute whenever
    the walk for [a] does. *)
Theorem get_layer_by_name_composes (model : pyobj) (a b : string) :
  _get_layer_by_name model (a +:+ "." +:+ b) =
    match _get_layer_by_name model a with
    | Some m => _get_layer_by_name m b
    | None => None
    end.
Proof.
  unfold _get_layer_by_name. by rewrite split_dot_app, resolve_parts_app.
Qed.

(** ** The constructor is idempotent *)

Lemma module_init_idempotent (device : string) (o : pyobj) :
  freeze_parameters (module_eval (module_to device
    (freeze_parameters (module_eval (module_to device o))))) =
  freeze_parameters (module_eval (module_to device o)).
Proof.
  induction o as [k attrs IH] using pyobj_induction.
  destruct k as [id cls tr|s rg dev|z| |]; simpl; try reflexivity.
  f_equal. rewrite !map_map. simpl.
  induction IH as [|[nm c] l Hc Hl IHl]; simpl; [done|].
  simpl in Hc. by rewrite Hc, IHl.
Qed.

Section Construction.
Context `{T : Torch}.

(** X2: constructing the engine a second time on the same device changes
    nothing more. *)
Theorem FeatureVisualizer_init_idempotent (w : World) (device : string) :
  FeatureVisualizer_init (FeatureVisualizer_init w device).2 device
    = FeatureVisualizer_init w device.
Proof.
  unfold FeatureVisualizer_init. simpl. by rewrite module_init_idempotent.
Qed.

End Construction.

(** ** The directory *)

Lemma str_of_nat_inj (i j : nat) : str_of_nat i = str_of_nat j -> i = j.
Proof.
  unfold str_of_nat. intros H.
  assert (Hn : forall n, Nat.to_uint n <> Decimal.Nil).
  { intros n Hn. pose proof (Unsigned.of_to n) as E. rewrite Hn in E.
    simpl in E. subst n. discriminate Hn. }
  apply Unsigned.to_uint_inj.
  pose proof (NilZero.usu _ (Hn i)) as Hi. pose proof (NilZero.usu _ (Hn j)) as Hj.
  rewrite H in Hi. rewrite Hi in Hj. by injection Hj.
Qed.

Lemma append_inj_r (p a b : string) : p +:+ a = p +:+ b -> a = b.
Proof. induction p as [|c p IH]; simpl; [done|]. intros [= H]. by apply IH. Qed.

Lemma unit_names_NoDup (prefix : string) (l : list nat) :
  NoDup l -> NoDup (map (fun i => prefix +:+ str_of_nat i) l).
Proof.
  intros H.
  assert (Hinj : Inj eq eq (fun i => prefix +:+ str_of_nat i)).
  { intros i j E. by apply str_of_nat_inj, (append_inj_r prefix). }
  by apply (NoDup_fmap_2 (fun i => prefix +:+ str_of_nat i)).
Qed.

Lemma unit_names_lookup (prefix : string) (n i : nat) :
  (i < n)%nat ->
  map (fun i => prefix +:+ str_of_nat i) (seq 0 n) !! i = Some (prefix +:+ str_of_nat i).
Proof.
  intros Hi. change (map ?f ?l) with (f <$> l).
  by rewrite list_lookup_fmap, lookup_seq_lt.
Qed.

(** The names [get_neuron_names] returns are [<category>_<i>] for [i] below
    some count, the category being that of the layer's class. *)
Lemma get_neuron_names_shape (self : LayerInspector) (path : string) (names : list string) :
  get_neuron_names self path = Ok names ->
  names = [] \/
  exists layer n,
    get_layer self path = Some layer /\
    names = map (fun i => name_prefix layer +:+ str_of_nat i) (seq 0 n).
Proof.
  unfold get_neuron_names.
  destruct (get_layer self path) as [layer|]; [|intros [= <-]; by left].
  assert (Hr : forall o r, py_range o = Ok r -> exists n, r = seq 0 n).
  { intros o r. unfold py_range. destruct (kind_of o); try done. intros [= <-]. eauto. }
  assert (Hm : forall o r, py_range_min768 o = Ok r -> exists n, r = seq 0 n).
  { intros o r. unfold py_range_min768. destruct (kind_of o); try done. intros [= <-]. eauto. }
  unfold name_prefix.
  destruct (kind_of layer) as [id cls tr| | | |] eqn:Hk; try (intros [= <-]; by left).
  - intros H. apply bind_ok in H as (num & _ & H).
    destruct (is_int_zero num); [injection H as <-; by left|].
    right. exists layer. rewrite Hk.
    destruct cls.
    + apply bind_ok in H as (r & Hrange & [= <-]). apply Hr in Hrange as [n ->]. eauto.
    + apply bind_ok in H as (r & Hrange & [= <-]). apply Hr in Hrange as [n ->]. eauto.
    + apply bind_ok in H as (r & Hrange & [= <-]). apply Hm in Hrange as [n ->]. eauto.
  - intros H. apply bind_ok in H as (num & _ & H).
    destruct (is_int_zero num); [injection H as <-; by left|].
    right. exists layer. rewrite Hk.
    apply bind_ok in H as (r & Hrange & [= <-]). apply Hm in Hrange as [n ->]. eauto.
  - intros H. apply bind_ok in H as (num & _ & H).
    destruct (is_int_zero num); [injection H as <-; by left|].
    right. exists layer. rewrite Hk.
    apply bind_ok in H as (r & Hrange & [= <-]). apply Hm in Hrange as [n ->]. eauto.
  - intros H. apply bind_ok in H as (num & _ & H).
    destruct (is_int_zero num); [injection H as <-; by left|].
    right. exists layer. rewrite Hk.
    apply bind_ok in H as (r & Hrange & [= <-]). apply Hm in Hrange as [n ->]. eauto.
Qed.

Lemma get_neuron_names_NoDup (self : LayerInspector) (path : string) (names : list string) :
  get_neuron_names self path = Ok names -> NoDup names.
Proof.
  intros H. apply get_neuron_names_shape in H as [->|(layer & n & _ & ->)].
  - constructor.
  - apply unit_names_NoDup, NoDup_seq.
Qed.

(** X3: the unit names of a layer are pairwise distinct, and the name at
    position [i] is the prefix of the layer's class ([neuron_] for a dense
    layer, [channel_] for a 2-d convolution, [unit_] otherwise) followed by
    the decimal numeral of [i]. *)
Theorem neuron_names_distinct_and_indexed (self : LayerInspector) (path : string)
    (names : list string) :
  get_neuron_names self path = Ok names ->
  NoDup names /\
  forall i name, names !! i = Some name ->
    exists layer,
      get_layer self path = Some layer /\ name = name_prefix layer +:+ str_of_nat i.
Proof.
  intros H. split; [by eapply get_neuron_names_NoDup|].
  apply get_neuron_names_shape in H as [->|(layer & n & Hl & ->)].
  - intros i name Hi. by rewrite lookup_nil in Hi.
  - intros i name Hi. exists layer. split; [done|].
    assert (Hlt : (i < n)%nat).
    { apply lookup_lt_Some in Hi. by rewrite length_map, length_seq in Hi. }
    rewrite (unit_names_lookup _ n i Hlt) in Hi. by injection Hi.
Qed.

#[global] Instance str_le_total : Total str_le.
Proof. intros a b. apply String.leb_total. Qed.

Lemma record_layers_form (l : list (string * pyobj)) :
  forall (layers : gmap string pyobj) key,
  is_Some (fold_left record_layer l layers !! key) ->
  is_Some (layers !! key) \/
  exists name, key = "visual." +:+ name /\ name <> "" /\ startswith_underscore name = false.
Proof.
  induction l as [|[name m] l IH]; intros layers key; simpl; [by left|].
  intros H. apply IH in H as [H|H]; [|by right].
  unfold record_layer in H. simpl in H.
  destruct (negb (String.eqb name "") && negb (startswith_underscore name)) eqn:E; [|by left].
  apply andb_true_iff in E as [E1 E2].
  apply negb_true_iff, String.eqb_neq in E1. apply negb_true_iff in E2.
  destruct (decide (key = "visual." +:+ name)) as [->|Hk].
  - right. by exists name.
  - rewrite lookup_insert_ne in H by done. by left.
Qed.

(** X4: the layer names come sorted, without duplicates, and each is
    [visual.] followed by a non-empty name that does not start with an
    underscore. *)
Theorem layer_names_sorted_and_prefixed (model : pyobj) (name : string)
    (self : LayerInspector) :
  LayerInspector_init model name = Ok self ->
  Sorted str_le (get_layer_names self) /\
  NoDup (get_layer_names self) /\
  forall path, path ∈ get_layer_names self ->
    exists rest, path = "visual." +:+ rest /\ rest <> "" /\ startswith_underscore rest = false.
Proof.
  intros Hinit. split; [|split].
  - apply Sorted_merge_sort. apply _.
  - unfold get_layer_names. rewrite merge_sort_Permutation.
    apply NoDup_fst_map_to_list.
  - intros path Hin. apply get_layer_names_elem in Hin.
    unfold LayerInspector_init in Hinit.
    apply bind_ok in Hinit as (layers & Hex & [= <-]).
    unfold get_layer in Hin. cbn [layers_info] in Hin.
    unfold _extract_layers in Hex.
    destruct (getattr model "visual") as [[[] ?]|]; try done.
    injection Hex as <-.
    apply record_layers_form in Hin as [Hin|Hin]; [|done].
    by destruct Hin as [v Hv].
Qed.

(** ** Negative unit indices *)

Lemma py_index_negative (c : nat) (i : Z) :
  - Z.of_nat c <= i < 0 -> py_index c i = py_index c (i + Z.of_nat c).
Proof.
  intros H. unfold py_index.
  replace (0 <=? i) with false by (symmetry; apply Z.leb_gt; lia).
  replace (i <? 0) with true by (symmetry; apply Z.ltb_lt; lia).
  replace (- Z.of_nat c <=? i) with true by (symmetry; apply Z.leb_le; lia).
  replace (0 <=? i + Z.of_nat c) with true by (symmetry; apply Z.leb_le; lia).
  replace (i + Z.of_nat c <? Z.of_nat c) with true by (symmetry; apply Z.ltb_lt; lia).
  reflexivity.
Qed.

Lemma tensor_index_negative (c : nat) (i : Z) :
  - Z.of_nat c <= i < 0 -> tensor_index c i = tensor_index c (i + Z.of_nat c).
Proof.
  intros H. unfold tensor_index. rewrite (py_index_negative c i H). unfold py_index.
  replace (0 <=? i + Z.of_nat c) with true by (symmetry; apply Z.leb_le; lia).
  replace (i + Z.of_nat c <? Z.of_nat c) with true by (symmetry; apply Z.ltb_lt; lia).
  reflexivity.
Qed.

(** X5: a negative unit index counts from the end of the channel (feature)
    axis: index [i] with [-C <= i < 0] reads the same activation as index
    [i + C]. *)
Theorem negative_unit_index_wraps (t : Tensor) (i : Z) :
  - Z.of_nat (nth 1 (shape t) 0%nat) <= i < 0 ->
  get_activation_value (mkHook (Some i) (Some (PyTensor t))) =
  get_activation_value
    (mkHook (Some (i + Z.of_nat (nth 1 (shape t) 0%nat))) (Some (PyTensor t))).
Proof.
  intros H. unfold get_activation_value. cbn [activation neuron_index].
  assert (E : select_dim1 t i = select_dim1 t (i + Z.of_nat (nth 1 (shape t) 0%nat))).
  { unfold select_dim1. destruct (shape t) as [|b [|c rest]]; try done.
    simpl in H. simpl. by rewrite (tensor_index_negative c i H). }
  by rewrite E.
Qed.

(** ** The progress callback *)

Section Progress.
Context `{T : Torch}.

Lemma run_loop_ext_in body1 body2 its st :
  (forall it s, it ∈ its -> body1 it s = body2 it s) ->
  run_loop body1 its st = run_loop body2 its st.
Proof.
  revert st. induction its as [|it its IH]; intros st E; simpl; [done|].
  rewrite (E it st) by left. destruct (body2 it st); simpl; [|done].
  apply IH. intros it' s Hin. apply E. by right.
Qed.

Lemma loop_body_quiet_callback w handle n be (cb : callback) it st :
  (forall a, (Z.of_nat it + 1) mod Z.max 1 (n / 20) = 0 ->
             cb (Z.of_nat it + 1) n a = None) ->
  loop_body w handle n be (Some cb) it st = loop_body w handle n be None it st.
Proof.
  intros Hq. unfold loop_body.
  destruct (model_visual w (normalize (ls_image st))) as [trace|e]; cbn [bind]; [|done].
  destruct (get_activation_value _) as [a|e]; cbn [bind]; [|done].
  destruct (backward _ _) as [g|e]; cbn [bind]; [|done].
  destruct (be =? 0); cbn [bind]; [done|].
  destruct ((Z.of_nat it + 1) mod Z.max 1 (n / 20) =? 0) eqn:E.
  - apply Z.eqb_eq in E. unfold call_progress. rewrite (Hq _ E).
    by destruct (_ =? 0).
  - by destruct (_ =? 0).
Qed.

(** X6: the progress callback is called only with the total equal to
    [num_iterations] and a current count between 1 and that total that is a
    multiple of [max(1, num_iterations // 20)]; a callback that returns
    normally on those calls is purely observational: result and final state
    are those of a call without callback. *)
Theorem quiet_callback_is_observational self w layer idx size n lr be seed (cb : callback) :
  (forall i a, 1 <= i <= n -> i mod Z.max 1 (n / 20) = 0 -> cb i n a = None) ->
  generate_image self w layer idx size n lr be seed (Some cb) =
  generate_image self w layer idx size n lr be seed None.
Proof.
  intros Hq. unfold generate_image.
  destruct (seed_generators w seed) as [[[]|e] w0]; [|done].
  destruct (size <? 0); [done|].
  destruct (Qlt_le_dec lr 0); [done|]. cbn [net].
  destruct (_get_layer_by_name (net w0) layer) as [target|]; [|done].
  destruct (kind_of target) as [m cls tr| | | |]; try done.
  cbn [register_forward_hook].
  match goal with
  | |- context [run_loop (loop_body ?wa ?ha n be (Some cb)) ?l ?st] =>
      rewrite (run_loop_ext_in (loop_body wa ha n be (Some cb)) (loop_body wa ha n be None) l st)
  end; [done|].
  intros it st Hin. apply loop_body_quiet_callback. intros a Hdue.
  apply elem_of_seq in Hin. apply Hq; [lia | done].
Qed.

End Progress.

(** ** Clamping *)

Lemma Qclamp_range (lo hi x : Q) : (lo <= hi)%Q -> (lo <= Qclamp lo hi x <= hi)%Q.
Proof.
  intros H. unfold Qclamp.
  destruct (Qlt_le_dec x lo); [split; lra|].
  destruct (Qlt_le_dec hi x); split; lra.
Qed.

Lemma Qclamp_monotone (lo hi x y : Q) :
  (lo <= hi)%Q -> (x <= y)%Q -> (Qclamp lo hi x <= Qclamp lo hi y)%Q.
Proof.
  intros H Hxy. unfold Qclamp.
  destruct (Qlt_le_dec x lo), (Qlt_le_dec y lo); try lra;
    destruct (Qlt_le_dec hi x), (Qlt_le_dec hi y); lra.
Qed.

Section Clamp.
Context `{T : Torch}.

Lemma loop_body_clamped w handle n be cb it st st' :
  loop_body w handle n be cb it st = Ok st' ->
  Forall (within (-2) 2) (data (ls_image st')).
Proof.
  unfold loop_body. intros H.
  apply bind_ok in H as (trace & _ & H).
  apply bind_ok in H as (a & _ & H).
  apply bind_ok in H as (g & _ & H).
  apply bind_ok in H as (im & _ & H).
  apply bind_ok in H as (u & _ & H).
  injection H as <-. cbn [ls_image clamp_ data].
  apply List.Forall_map, List.Forall_forall. intros x _.
  apply Qclamp_range. lra.
Qed.

Lemma run_loop_last (P : LoopState -> Prop) body its st st' :
  (forall it s s', body it s = Ok s' -> P s') ->
  its <> [] ->
  run_loop body its st = Ok st' -> P st'.
Proof.
  intros Hb. revert st. induction its as [|it its IH]; intros st Hne; [done|]. simpl.
  intros H. apply bind_ok in H as (s1 & H1 & H).
  destruct its as [|it' its'].
  - simpl in H. injection H as <-. eauto.
  - eapply IH; [done | exact H].
Qed.

End Clamp.

(** ** What a completed run can paint *)

Lemma at_within (lo hi : Q) (d : list Q) (k : nat) :
  within lo hi 0 -> Forall (within lo hi) d -> within lo hi (at_ d k).
Proof.
  intros H0 Hd. unfold at_. revert k. induction Hd as [|x l Hx Hl IH]; intros [|k]; simpl; auto.
Qed.

Lemma denormalize_monotone (c : nat) (x y : Q) :
  (x <= y)%Q -> (denormalize c x <= denormalize c y)%Q.
Proof.
  intros H. unfold denormalize.
  assert (Hs : (0 <= float32_literal (at_ clip_std c))%Q).
  { destruct c as [|[|[|c]]]; [vm_compute; discriminate ..|].
    unfold at_. simpl. destruct c; vm_compute; discriminate. }
  apply binary32_monotone. apply Qplus_le_l. apply binary32_monotone.
  by apply Qmult_le_compat_r.
Qed.

Lemma to_byte_ceiling (c : nat) (x : Q) :
  (c < 3)%nat -> within (-2) 2 x -> to_byte c x <= channel_ceiling c.
Proof.
  intros Hc [Hlo Hhi]. rewrite to_byte_truncates.
  assert (Hm : (binary32 (Qclamp 0 1 (denormalize c x) * 255) <=
                binary32 (Qclamp 0 1 (denormalize c 2) * 255))%Q).
  { apply binary32_monotone.
    pose proof (Qclamp_monotone 0 1 _ _ ltac:(lra) (denormalize_monotone c x 2 Hhi)). lra. }
  destruct (scaled_range _ (Qclamp_unit (denormalize c x))) as [H0 _].
  etransitivity; [apply Qtrunc_monotone; [exact H0 | exact Hm]|].
  destruct c as [|[|[|c]]]; [vm_compute; discriminate .. | lia].
Qed.

Section Ceiling.
Context `{T : Torch}.

Lemma generate_image_result_clamped self w layer idx size n lr be seed cb img :
  0 < n ->
  (generate_image self w layer idx size n lr be seed cb).1 = Ok img ->
  exists final : Tensor,
    shape final = [1; 3; Z.to_nat size; Z.to_nat size]%nat /\
    img = _tensor_to_image final /\
    Forall (within (-2) 2) (data final).
Proof.
  intros Hn. unfold generate_image.
  destruct (seed_generators w seed) as [[[]|e] w0]; [|done].
  destruct (size <? 0); [done|].
  destruct (Qlt_le_dec lr 0); [done|]. simpl.
  destruct (_get_layer_by_name (net w0) layer) as [target|]; [|done].
  destruct (kind_of target) as [m cls tr| | | |]; try done. simpl.
  destruct (run_loop _ _ _) as [st|e] eqn:E; simpl; [|done].
  intros [= <-]. exists (ls_image st). split; [|split; [done|]].
  - by rewrite (run_loop_shape _ _ _ _ _ _ _ _ E).
  - revert E. apply (run_loop_last (fun s => Forall (within (-2) 2) (data (ls_image s)))).
    + intros it s s'. apply loop_body_clamped.
    + rewrite (iterations_cons n Hn). done.
Qed.

(** X7: once at least one iteration has completed, the clamp to [-2, 2]
    caps what the conversion can produce: no green value above 250 and no
    blue value above 244 (red can reach 255). *)
Theorem completed_run_caps_green_and_blue self w layer idx size n lr be seed cb img :
  0 < n ->
  (generate_image self w layer idx size n lr be seed cb).1 = Ok img ->
  forall i j c v,
    (i < Z.to_nat size)%nat -> (j < Z.to_nat size)%nat -> (c < 3)%nat ->
    pixels img !! ((i * Z.to_nat size + j) * 3 + c)%nat = Some v ->
    v <= channel_ceiling c.
Proof.
  intros Hn H i j c v Hi Hj Hc Hv.
  apply (generate_image_result_clamped _ _ _ _ _ _ _ _ _ _ _ Hn) in H
    as (final & Hshape & -> & Hclamp).
  pose proof (_tensor_to_image_pixel final i j c) as Hp. cbv zeta in Hp.
  rewrite Hshape in Hp. cbn [nth] in Hp.
  rewrite (Hp Hi Hj Hc) in Hv. injection Hv as <-.
  rewrite <- to_byte_truncates. apply to_byte_ceiling; [done|].
  apply at_within; [split; lra | done].
Qed.

End Ceiling.

(** ** Total variation *)

Lemma Qsum_nonneg (l : list Q) : Forall (fun x => 0 <= x)%Q l -> (0 <= Qsum l)%Q.
Proof. induction 1 as [|x l Hx Hl IH]; simpl; [lra|]. lra. Qed.

Lemma Qmean_abs_nonneg (l : list Q) : (0 <= Qmean (map Qabs l))%Q.
Proof.
  unfold Qmean. apply Qmult_le_0_compat.
  - apply Qsum_nonneg, List.Forall_map, List.Forall_forall. intros x _. apply Qabs_nonneg.
  - apply Qinv_le_0_compat. unfold Qle. simpl. lia.
Qed.

(** X8: the total variation of an image is never negative. *)
Theorem total_variation_nonneg (image : Tensor) : (0 <= _total_variation image)%Q.
Proof.
  unfold _total_variation. cbv zeta.
  match goal with
  | |- (0 <= Qmean (map Qabs ?a) + Qmean (map Qabs ?b))%Q =>
      pose proof (Qmean_abs_nonneg a); pose proof (Qmean_abs_nonneg b)
  end.
  lra.
Qed.

Lemma Qsum_zero (l : list Q) : Forall (fun x => x == 0)%Q l -> (Qsum l == 0)%Q.
Proof. induction 1 as [|x l Hx Hl IH]; simpl; [reflexivity|]. rewrite Hx, IH. reflexivity. Qed.

Lemma Qmean_abs_zero (l : list Q) : Forall (fun x => x == 0)%Q l -> (Qmean (map Qabs l) == 0)%Q.
Proof.
  intros H. unfold Qmean. rewrite Qsum_zero; [apply Qmult_0_l|].
  apply List.Forall_map. eapply List.Forall_impl; [|exact H].
  intros x Hx. simpl in Hx. rewrite Hx. reflexivity.
Qed.

(** X9: an image each of whose planes holds one value throughout has total
    variation 0, and the regularization step of the loop, which subtracts
    [0.01 * tv] from every pixel, leaves it as it is.  (Planes of at least
    2 x 2 pixels: on a single row or column the code divides by zero.) *)
Theorem flat_image_has_no_total_variation (image : Tensor) (b c h w : nat) :
  shape image = [b; c; h; w] ->
  (1 <= b * c)%nat -> (2 <= h)%nat -> (2 <= w)%nat ->
  flat image ->
  (_total_variation image == 0)%Q /\
  Forall2 Qeq (map (fun x => x - (1 # 100) * _total_variation image)%Q (data image))
              (data image).
Proof.
  intros Hs _ _ _ Hflat. unfold flat in Hflat. rewrite Hs in Hflat. cbn [nth] in Hflat.
  assert (Htv : (_total_variation image == 0)%Q).
  { unfold _total_variation. rewrite Hs. cbn [nth].
    rewrite !Qmean_abs_zero; [reflexivity| |].
    - apply List.Forall_flat_map, List.Forall_forall. intros n Hn. apply in_seq in Hn.
      apply List.Forall_flat_map, List.Forall_forall. intros i Hi. apply in_seq in Hi.
      apply List.Forall_map, List.Forall_forall. intros j Hj. apply in_seq in Hj.
      rewrite (Hflat n i j), (Hflat n (i + 1)%nat j) by lia. ring.
    - apply List.Forall_flat_map, List.Forall_forall. intros n Hn. apply in_seq in Hn.
      apply List.Forall_flat_map, List.Forall_forall. intros i Hi. apply in_seq in Hi.
      apply List.Forall_map, List.Forall_forall. intros j Hj. apply in_seq in Hj.
      rewrite (Hflat n i j), (Hflat n i (j + 1)%nat) by lia. ring. }
  split; [exact Htv|].
  set (k := _total_variation image) in *. clearbody k. clear Hflat.
  induction (data image) as [|x l IH]; simpl; constructor; [|exact IH].
  rewrite Htv. ring.
Qed.

(** ** Blur *)



(** ** The layer filter of the web callers *)




(** ** The name-to-index table of the web interface *)

Lemma neuron_options_snoc (names : list string) (x : string) :
  neuron_options (names ++ [x]) = <[x := length names]> (neuron_options names).
Proof.
  unfold neuron_options. rewrite imap_app, fold_left_app. simpl.
  by rewrite Nat.add_0_r.
Qed.

Lemma neuron_options_lookup (names : list string) (i : nat) (name : string) :
  NoDup names -> names !! i = Some name -> neuron_options names !! name = Some i.
Proof.
  induction names as [|x names IH] using rev_ind; intros Hnd Hi; [done|].
  rewrite neuron_options_snoc. apply NoDup_app in Hnd as (Hnd & Hx & _).
  destruct (decide (i < length names)%nat) as [Hlt|Hge].
  - rewrite lookup_app_l in Hi by done.
    rewrite lookup_insert_ne; [by apply IH|].
    intros ->. apply (Hx name); [by eapply list_elem_of_lookup_2 | left].
  - rewrite lookup_app_r in Hi by lia.
    destruct (i - length names)%nat as [|k] eqn:E; simpl in Hi; [|done].
    injection Hi as <-. rewrite lookup_insert_eq. f_equal. lia.
Qed.

(** X12: in the web interface, selecting the name at position [i] of a layer's
    unit names selects unit index [i]. *)
Theorem selected_name_gives_its_index (self : LayerInspector) (path : string)
    (names : list string) (i : nat) (name : string) :
  get_neuron_names self path = Ok names ->
  names !! i = Some name ->
  neuron_options names !! name = Some i.
Proof.
  intros H Hi. apply neuron_options_lookup; [|done].
  by eapply get_neuron_names_NoDup.
Qed.

(** ** The text progress bar *)

(** X13: for a progress report with [0 <= current <= total], the bar has
    exactly [bar_length] cells, the filled ones first, and it is full exactly
    when [current = total]. *)
Theorem progress_bar_cells (bar_length current total : Z) :
  0 < bar_length -> 0 <= current <= total -> 0 < total ->
  length (progress_bar bar_length current total) = Z.to_nat bar_length /\
  (exists filled : nat,
     (filled <= Z.to_nat bar_length)%nat /\
     progress_bar bar_length current total
       = repeat true filled ++ repeat false (Z.to_nat bar_length - filled)) /\
  (progress_bar bar_length current total = repeat true (Z.to_nat bar_length)
     <-> current = total).
Proof.
  intros Hb Hc Ht. unfold progress_bar.
  set (filled := Z.quot (bar_length * current) total).
  assert (Hf : 0 <= filled <= bar_length).
  { unfold filled. rewrite Z.quot_div_nonneg by nia. split.
    - apply Z.div_pos; nia.
    - apply Z.div_le_upper_bound; nia. }
  assert (Hfull : filled = bar_length <-> current = total).
  { unfold filled. rewrite Z.quot_div_nonneg by nia. split.
    - intros E. destruct (decide (current = total)) as [|Hne]; [done|].
      assert (bar_length * current < bar_length * total) by nia.
      assert (bar_length * current / total < bar_length)
        by (apply Z.div_lt_upper_bound; nia).
      lia.
    - intros ->. by rewrite Z.div_mul by lia. }
  split; [|split].
  - rewrite length_app, !repeat_length. lia.
  - exists (Z.to_nat filled). split; [lia|]. do 2 f_equal. lia.
  - split.
    + intros E. apply Hfull.
      assert (Hl : length (List.filter negb (repeat true (Z.to_nat filled)
                     ++ repeat false (Z.to_nat (bar_length - filled)))) = 0%nat).
      { rewrite E. clear. induction (Z.to_nat bar_length); simpl; auto. }
      rewrite List.filter_app, length_app in Hl.
      assert (Hr : forall k, length (List.filter negb (repeat false k)) = k).
      { induction k; simpl; auto. }
      rewrite Hr in Hl. lia.
    + intros E. apply Hfull in E. rewrite E, Z.sub_diag. simpl. by rewrite app_nil_r.
Qed.

(** ** Resolution after the engine was constructed *)

Lemma lookup_attr_map (f : pyobj -> pyobj) (name : string) (attrs : list (string * pyobj)) :
  lookup_attr name (map (fun na => (fst na, f (snd na))) attrs)
    = f <$> lookup_attr name attrs.
Proof.
  induction attrs as [|[n c] l IH]; simpl; [done|].
  destruct (String.eqb n name); [done | apply IH].
Qed.

Lemma resolve_parts_after_init (device : string) (parts : list string) :
  forall o m,
  resolve_parts parts o = Some m ->
  exists m',
    resolve_parts parts (freeze_parameters (module_eval (module_to device o))) = Some m' /\
    same_sort m m'.
Proof.
  induction parts as [|p parts IH]; intros o m; simpl.
  - intros [= <-]. eexists. split; [done|].
    destruct o as [[] attrs]; by split.
  - destruct (getattr o p) as [c|] eqn:Hc; [|done]. intros Hm.
    destruct o as [k attrs]. unfold getattr in *. cbn [attrs_of] in Hc.
    destruct k as [id cls tr|s rg dev|z| |]; cbn [module_to module_eval freeze_parameters attrs_of].
    + rewrite !map_map. cbn [fst snd].
      rewrite (lookup_attr_map
                 (fun c => freeze_parameters (module_eval (module_to device c))) p attrs), Hc.
      cbn [fmap option_fmap option_map]. by apply IH.
    + rewrite Hc. exists m. split; [done|]. by split.
    + rewrite Hc. exists m. split; [done|]. by split.
    + rewrite Hc. exists m. split; [done|]. by split.
    + rewrite Hc. exists m. split; [done|]. by split.
Qed.

Section CallerFacts.
Context `{T : Torch}.

Lemma resolves_after_init (w : World) (device : string) (layer : string) (target : pyobj) :
  _get_layer_by_name (net w) layer = Some target ->
  is_module target = true ->
  resolves (net (FeatureVisualizer_init w device).2) layer = true.
Proof.
  intros Hres Hm. unfold resolves, _get_layer_by_name in *. cbn [FeatureVisualizer_init snd net].
  destruct (resolve_parts_after_init device _ _ _ Hres) as (m' & -> & Hmod & _).
  rewrite Hm in Hmod. unfold is_module in Hmod. by destruct (kind_of m').
Qed.

(** The engine's "not found" error comes from the layer lookup alone. *)
Lemma not_found_only_when_unresolved self w layer idx size n lr be seed cb :
  (generate_image self w layer idx size n lr be seed cb).1
    = Raise (ValueError (layer_not_found layer)) ->
  resolves (net w) layer = false.
Proof.
  unfold generate_image, resolves.
  pose proof (seed_generators_net w seed) as Hnet.
  destruct (seed_generators w seed) as [[[]|e] w0] eqn:Hseed; simpl in Hnet.
  2:{ cbn [fst]. intros [= ->]. exfalso. revert Hseed. unfold seed_generators.
      destruct seed as [s|]; [|done].
      destruct (_ || _); [done|]. destruct (_ || _); [|done].
      unfold layer_not_found. by intros [= H _]. }
  destruct (size <? 0); [done|].
  destruct (Qlt_le_dec lr 0).
  { unfold layer_not_found. cbn [fst]. by intros [= H]. }
  cbn [net]. rewrite Hnet.
  destruct (_get_layer_by_name (net w) layer) as [target|]; [|done].
  destruct (kind_of target) as [m cls tr| | | |]; try done.
  cbn [register_forward_hook].
  destruct (run_loop _ _ _) as [st|e] eqn:E; [done|].
  apply (run_loop_error _ _ _ _ _ _ _ _ layer) in E. cbn [fst]. by intros [= ->].
Qed.

(** X14: the command-line tool never ends with the engine's "Layer ... not
    found": the layers it lets through are walked successfully by the
    engine, also after the engine has switched the network's modes. *)
Theorem cli_never_reports_layer_not_found (args : cli_args) (w : World) (device : string) :
  wf_obj (net w) = true ->
  forall layer,
    arg_layer args = Some layer ->
    (cli_main args w device).1 <> Ok (GenerationFailed (ValueError (layer_not_found layer))).
Proof.
  intros Hwf layer Hl. unfold cli_main. rewrite Hl.
  destruct (LayerInspector_init (net w) "ViT-B/32") as [inspector|e] eqn:Hinit; [|done].
  destruct (arg_list_layers args); [done|].
  destruct (String.eqb layer ""); [done|].
  case_bool_decide as Hin; [|done]. cbn [negb].
  destruct (arg_neurons args); [by destruct (get_neuron_names inspector layer)|].
  destruct (arg_neuron args) as [neuron|]; [|done].
  destruct (get_neuron_names inspector layer) as [names|e]; [|done].
  destruct (_ <=? neuron); [done|].
  destruct (FeatureVisualizer_init w device) as [visualizer w1] eqn:Hv.
  destruct (py_index _ _); [|done].
  destruct (generate_image _ _ _ _ _ _ _ _ _ _) as [[img|e] w2] eqn:Hg; [done|].
  cbn [fst]. intros [= ->].
  apply get_layer_names_elem in Hin as [target Ht].
  destruct (directory_layers_resolve _ _ _ _ _ Hwf Hinit Ht) as [Hres Hm].
  pose proof (resolves_after_init w device layer target Hres Hm) as Hr.
  rewrite Hv in Hr. cbn [snd] in Hr.
  assert (Hf : (generate_image visualizer w1 layer (Some neuron) (arg_size args)
                  (arg_iterations args) (arg_lr args) (arg_blur_every args)
                  (Some (arg_seed args)) (Some print_progress)).1
               = Raise (ValueError (layer_not_found layer))) by (by rewrite Hg).
  apply not_found_only_when_unresolved in Hf. congruence.
Qed.

(** X15: the command-line tool checks the unit index from above only: an
    index below [-count] passes the check and ends the run in an uncaught
    [IndexError], after the engine was constructed. *)
Theorem cli_index_below_range_crashes (args : cli_args) (w : World) (device : string)
    inspector layer names neuron :
  LayerInspector_init (net w) "ViT-B/32" = Ok inspector ->
  arg_list_layers args = false -> arg_neurons args = false ->
  arg_layer args = Some layer -> layer <> "" ->
  layer ∈ get_layer_names inspector ->
  get_neuron_names inspector layer = Ok names ->
  arg_neuron args = Some neuron ->
  neuron < - Z.of_nat (length names) ->
  cli_main args w device = (Raise IndexError, (FeatureVisualizer_init w device).2).
Proof.
  intros Hinit Hll Hns Hl Hne Hin Hnames Hn Hlow. unfold cli_main.
  rewrite Hinit, Hll, Hl. apply String.eqb_neq in Hne. rewrite Hne.
  rewrite bool_decide_eq_true_2 by done. cbn [negb]. rewrite Hns, Hn, Hnames.
  replace (Z.of_nat (length names) <=? neuron) with false by (symmetry; apply Z.leb_gt; lia).
  destruct (FeatureVisualizer_init w device) as [visualizer w1].
  rewrite py_index_out_of_range by lia. done.
Qed.

(** ** The web endpoint *)

(** X16: [/api/generate] never streams an image for a layer whose module
    computes its output: a request outside the bands (size 64..512,
    iterations 100..5000) is answered with status 500 by the endpoint's own
    check, and a request inside them makes the engine run at least 100
    iterations, the first of which raises. *)
Theorem api_generate_answers_500 visualizer (w : World) layer neuron size n lr be seed :
  (forall target m cls tr x trace,
     _get_layer_by_name (net w) layer = Some target ->
     kind_of target = KModule m cls tr ->
     model_visual w x = Ok trace ->
     (m, OutInput) ∉ trace) ->
  exists e w',
    generate_visualization visualizer w layer neuron size n lr be seed
      = (HTTPException 500 e, w').
Proof.
  intros Hfresh. unfold generate_visualization.
  destruct ((size <? 64) || (512 <? size)) eqn:E1; [eauto|].
  destruct ((n <? 100) || (5000 <? n)) eqn:E2; [eauto|].
  apply orb_false_iff in E2 as [E2 _]. apply Z.ltb_ge in E2.
  destruct (generate_image _ _ _ _ _ _ _ _ _ _) as [[image|e] w1] eqn:Hg; [|eauto].
  exfalso. revert Hg. unfold generate_image.
  pose proof (seed_generators_net w (Some seed)) as Hnet.
  destruct (seed_generators w (Some seed)) as [[[]|e] w0]; cbn [snd] in Hnet; [|done].
  destruct (size <? 0); [done|].
  destruct (Qlt_le_dec lr 0); [done|]. cbn [net]. rewrite Hnet.
  destruct (_get_layer_by_name (net w) layer) as [target|] eqn:Hres; [|done].
  destruct (kind_of target) as [m cls tr| | | |] eqn:Hk; try done.
  cbn [register_forward_hook].
  rewrite (iterations_cons n) by lia.
  match goal with
  | |- context [run_loop (loop_body ?w1 ?h _ _ _) _ ?st] =>
      assert (exists e, loop_body w1 h n be None 0%nat st = Raise e) as [e He]
  end.
  { apply (loop_body_never_completes _ _ m).
    - cbn [forward_hooks]. by rewrite lookup_insert_eq.
    - done.
    - intros x trace Hx. eapply Hfresh; eauto. }
  by rewrite (run_loop_first_raises _ _ _ _ e He).
Qed.

End CallerFacts.

(** ** The batch *)

Lemma py_range3_ascending (start stop step : Z) :
  0 < step ->
  exists l, py_range3 start stop step = Ok l /\
            forall x, x ∈ l -> start <= x < stop.
Proof.
  intros Hs. unfold py_range3.
  replace (step =? 0) with false by (symmetry; apply Z.eqb_neq; lia).
  replace (0 <? step) with true by (symmetry; apply Z.ltb_lt; lia).
  eexists. split; [reflexivity|]. intros x Hx.
  apply list_elem_of_fmap in Hx as (k & -> & Hk). apply elem_of_seq in Hk.
  destruct (start <? stop) eqn:E; [|simpl in Hk; lia].
  apply Z.ltb_lt in E.
  assert (Hq : 0 <= (stop - start - 1) / step) by (apply Z.div_pos; lia).
  assert (Hk' : Z.of_nat k <= (stop - start - 1) / step) by lia.
  pose proof (Z.mul_div_le (stop - start - 1) step Hs) as Hm.
  nia.
Qed.

Section BatchFacts.
Context `{T : Torch}.

Lemma batch_step_records visualizer layer names size n lr be seed_base skip seen st idx :
  0 <= idx < Z.of_nat (length names) ->
  recorded names seen st ->
  exists st',
    batch_step visualizer layer names size n lr be seed_base skip st idx = Ok st' /\
    recorded names ({[idx]} ∪ seen) st'.
Proof.
  intros Hidx [Hdom Hnames]. unfold batch_step.
  replace (Z.of_nat (length names) <=? idx) with false by (symmetry; apply Z.leb_gt; lia).
  assert (Hpy : py_index (length names) idx = Ok (Z.to_nat idx)).
  { unfold py_index.
    replace (0 <=? idx) with true by (symmetry; apply Z.leb_le; lia).
    by replace (idx <? Z.of_nat (length names)) with true by (symmetry; apply Z.ltb_lt; lia). }
  rewrite Hpy. cbn [bind].
  assert (Hname : names !! Z.to_nat idx = Some (nth (Z.to_nat idx) names "")).
  { destruct (lookup_lt_is_Some_2 names (Z.to_nat idx)) as [x Hx]; [lia|].
    by rewrite (nth_lookup_Some _ _ "" _ Hx). }
  assert (Hins : forall status w' files',
    recorded names ({[idx]} ∪ seen)
      (mkBatch w' files'
         (<[idx := (nth (Z.to_nat idx) names "", status)]> (b_neurons st)))).
  { intros status w' files'. split; cbn [b_neurons].
    - by rewrite dom_insert_L, Hdom.
    - intros i nm s Hi. destruct (decide (i = idx)) as [->|Hne].
      + rewrite lookup_insert_eq in Hi. by injection Hi as <- _.
      + rewrite lookup_insert_ne in Hi by done. eauto. }
  destruct (_ && _); [eauto|].
  destruct (generate_image _ _ _ _ _ _ _ _ _ _) as [[img|e] w']; eauto.
Qed.

Lemma batch_loop_records visualizer layer names size n lr be seed_base skip indices :
  forall seen st,
  Forall (fun idx => 0 <= idx < Z.of_nat (length names)) indices ->
  recorded names seen st ->
  exists st',
    batch_loop (batch_step visualizer layer names size n lr be seed_base skip) indices st
      = Ok st' /\
    recorded names (list_to_set indices ∪ seen) st'.
Proof.
  induction indices as [|idx indices IH]; intros seen st Hall Hrec; simpl.
  - exists st. split; [done|]. by rewrite (left_id_L ∅ (∪)).
  - apply Forall_cons in Hall as [Hidx Hall].
    destruct (batch_step_records visualizer layer names size n lr be seed_base skip
                seen st idx Hidx Hrec) as (st1 & -> & Hrec1).
    cbn [bind].
    destruct (IH _ _ Hall Hrec1) as (st' & -> & Hrec').
    exists st'. split; [done|].
    replace ({[idx]} ∪ list_to_set indices ∪ seen)
      with (list_to_set indices ∪ ({[idx]} ∪ seen))
      by (apply set_eq; intros x; rewrite !elem_of_union; tauto).
    done.
Qed.

(** X17: for a listed layer, a start index that is not negative and a
    positive step, the batch runs to the end whatever the engine does for
    the single units: every index of
    [range(start, min(end, count), step)] is a valid unit index and gets
    exactly its entry in the metadata, under the unit's name. *)
Theorem batch_records_every_selected_unit (w : World) (device : string) (files : gset string)
    layer start end_ step size n lr be seed_base skip inspector names :
  LayerInspector_init (net w) "ViT-B/32" = Ok inspector ->
  layer ∈ get_layer_names inspector ->
  get_neuron_names inspector layer = Ok names ->
  0 <= start -> 0 < step ->
  exists st indices,
    batch_generate w device files layer (start, end_, step) size n lr be seed_base skip
      = Ok (Some st) /\
    py_range3 start (Z.min end_ (Z.of_nat (length names))) step = Ok indices /\
    (forall idx, idx ∈ indices -> 0 <= idx < Z.of_nat (length names)) /\
    dom (b_neurons st) = list_to_set indices /\
    (forall idx name status,
       b_neurons st !! idx = Some (name, status) -> names !! Z.to_nat idx = Some name).
Proof.
  intros Hinit Hin Hnames Hstart Hstep. unfold batch_generate.
  rewrite Hinit. cbn [bind].
  destruct (FeatureVisualizer_init w device) as [visualizer w1].
  rewrite bool_decide_eq_true_2 by done. rewrite Hnames. cbn [bind].
  assert (Hend : (if Z.of_nat (length names) <? end_ then Z.of_nat (length names) else end_)
                 = Z.min end_ (Z.of_nat (length names))).
  { destruct (Z.of_nat (length names) <? end_) eqn:E.
    - apply Z.ltb_lt in E. lia.
    - apply Z.ltb_ge in E. lia. }
  rewrite Hend.
  destruct (py_range3_ascending start (Z.min end_ (Z.of_nat (length names))) step Hstep)
    as (indices & Hrange & Hbound).
  rewrite Hrange. cbn [bind].
  assert (Hall : Forall (fun idx => 0 <= idx < Z.of_nat (length names)) indices).
  { apply Forall_forall. intros idx Hidx. apply Hbound in Hidx. lia. }
  destruct (batch_loop_records visualizer layer names size n lr be seed_base skip indices
              ∅ (mkBatch w1 files ∅) Hall) as (st & -> & Hdom & Hnm).
  { split; [apply dom_empty_L | by intros idx name status H]. }
  exists st, indices. cbn [bind]. repeat split; try done.
  - apply Hbound in H. lia.
  - apply Hbound in H. lia.
  - by rewrite Hdom, (right_id_L ∅ (∪)).
Qed.

End BatchFacts.

(** ** Layer descriptions *)

(** X18: a layer is described exactly when the directory lists it; the
    description carries the queried name, and never both [out_features] and
    [num_channels]. *)
Theorem layer_info_of_listed_layers (type_name : pyobj -> string)
    (parameter_count : pyobj -> Z) (model : pyobj) (name : string)
    (self : LayerInspector) (path : string) :
  wf_obj model = true ->
  LayerInspector_init model name = Ok self ->
  let info := get_layer_info type_name parameter_count self path in
  (path ∈ get_layer_names self <-> info <> ∅) /\
  (path ∈ get_layer_names self -> info !! "name" = Some (InfoStr path)) /\
  (is_Some (info !! "out_features") -> info !! "num_channels" = None).
Proof.
  intros Hwf Hinit info. subst info. unfold get_layer_info.
  rewrite get_layer_names_elem.
  destruct (get_layer self path) as [layer|] eqn:Hget.
  - destruct (directory_layers_resolve _ _ _ _ _ Hwf Hinit Hget) as [_ Hm].
    unfold is_module in Hm.
    destruct (kind_of layer) eqn:Hk; try discriminate Hm.
    destruct (getattr layer "out_features") as [f|];
      [|destruct (getattr layer "num_channels") as [c|]].
    + split; [|split].
      * split; [intros _ E | eauto].
        apply (f_equal (fun m => m !! "name")) in E. by simplify_map_eq.
      * intros _. by simplify_map_eq.
      * intros _. by simplify_map_eq.
    + split; [|split].
      * split; [intros _ E | eauto].
        apply (f_equal (fun m => m !! "name")) in E. by simplify_map_eq.
      * intros _. by simplify_map_eq.
      * intros [x Hx]. by simplify_map_eq.
    + split; [|split].
      * split; [intros _ E | eauto].
        apply (f_equal (fun m => m !! "name")) in E. by simplify_map_eq.
      * intros _. by simplify_map_eq.
      * intros [x Hx]. by simplify_map_eq.
  - split; [|split].
    + split; [by intros [x Hx] | done].
    + by intros [x Hx].
    + intros [x Hx]. by rewrite lookup_empty in Hx.
Qed.

(** ** The network after construction *)

Lemma settled_attr (device : string) (k : pykind) (attrs : list (string * pyobj))
    (name : string) (c : pyobj) :
  is_module (Obj k attrs) = true ->
  settled device (Obj k attrs) = true ->
  (name, c) ∈ attrs -> settled device c = true.
Proof.
  intros Hm Hs Hin. destruct k; try discriminate Hm. simpl in Hs.
  apply andb_true_iff in Hs as [_ Hs]. rewrite forallb_forall in Hs.
  apply list_elem_of_In in Hin. by apply (Hs (name, c)).
Qed.

Lemma settled_named_modules (device : string) (o : pyobj) :
  settled device o = true ->
  forall memo prefix name m,
    (name, m) ∈ (named_modules memo prefix o).1 -> settled device m = true.
Proof.
  induction o as [k attrs IH] using pyobj_induction. intros Hs memo prefix name m.
  destruct k as [id cls tr| | | |]; simpl; try by intros ?%elem_of_nil.
  case_bool_decide; simpl; [by intros ?%elem_of_nil|].
  intros Hin. apply elem_of_cons in Hin as [[= -> ->]|Hin]; [done|].
  apply named_modules_below_elem in Hin as [Hin|(na & memo' & Hna & Hin)];
    [by apply elem_of_nil in Hin|].
  rewrite Forall_forall in IH. eapply (IH na Hna); [|exact Hin].
  destruct na as [n c]. by eapply (settled_attr device (KModule id cls tr) attrs n c).
Qed.

Lemma record_layers_value (l : list (string * pyobj)) :
  forall (layers : gmap string pyobj) key v,
  fold_left record_layer l layers !! key = Some v ->
  layers !! key = Some v \/ exists name, (name, v) ∈ l.
Proof.
  intros layers key v H. apply record_layers_lookup in H as [H|(nm & H & _)]; eauto.
Qed.

Section Settled.
Context `{T : Torch}.

(** X19: once the engine is constructed, every layer of the network's
    directory is in evaluation mode, and every parameter it holds is frozen
    and placed on the engine's device. *)
Theorem listed_layers_are_frozen (w : World) (device name : string)
    (self : LayerInspector) (path : string) id cls tr attrs :
  is_module (net w) = true ->
  LayerInspector_init (net (FeatureVisualizer_init w device).2) name = Ok self ->
  get_layer self path = Some (Obj (KModule id cls tr) attrs) ->
  tr = false /\
  forall p s rg dev pattrs,
    lookup_attr p attrs = Some (Obj (KParam s rg dev) pattrs) ->
    rg = false /\ dev = device.
Proof.
  intros Hmod Hinit Hget. cbn [FeatureVisualizer_init snd net] in Hinit.
  pose proof (settled_after_init device (net w)) as Hs.
  set (model := freeze_parameters (module_eval (module_to device (net w)))) in *.
  assert (Hmodel : is_module model = true).
  { subst model. destruct (net w) as [[] ?]; done. }
  unfold LayerInspector_init in Hinit.
  apply bind_ok in Hinit as (layers & Hex & [= <-]).
  unfold get_layer in Hget. cbn [layers_info] in Hget.
  unfold _extract_layers in Hex.
  destruct (getattr model "visual") as [visual|] eqn:Hv; [|done].
  assert (Hl : layers = fold_left record_layer (named_modules [] "" visual).1 ∅).
  { destruct visual as [[] ?]; try done. by injection Hex as <-. }
  subst layers. clear Hex.
  apply record_layers_value in Hget as [Hget|[nm Hin]]; [done|].
  assert (Hsv : settled device visual = true).
  { destruct model as [km am]. unfold getattr in Hv. cbn [attrs_of] in Hv.
    apply lookup_attr_elem in Hv. by eapply (settled_attr device km am "visual" visual). }
  pose proof (settled_named_modules device visual Hsv [] "" nm _ Hin) as Hlayer.
  simpl in Hlayer. apply andb_true_iff in Hlayer as [Htr Hattrs].
  split; [by destruct tr|].
  intros p s rg dev pattrs Hp. apply lookup_attr_elem in Hp.
  rewrite forallb_forall in Hattrs. apply list_elem_of_In in Hp.
  specialize (Hattrs _ Hp). simpl in Hattrs.
  apply andb_true_iff in Hattrs as [Hrg Hdev].
  split; [by destruct rg | by apply String.eqb_eq in Hdev].
Qed.

End Settled.

(** ** The further statements at work on the small network *)

Lemma toy_directory : LayerInspector_init (net Toy.ready) "ViT-B/32" = Ok Toy.inspector.
Proof. vm_compute. reflexivity. Qed.

Lemma toy_network_wf : wf_obj (net Toy.ready) = true.
Proof. vm_compute. reflexivity. Qed.

(** A path the engine reports as not found because its walk ends at [None]
    can still be continued: [None] has attributes of its own. *)
Lemma walk_continues_through_None :
  let model := Obj (KModule 0 OtherModule false)
                   [("bias", Obj KNone [("__class__", Obj KOther [])])] in
  resolves model "bias" = false /\ resolves model "bias.__class__" = true.
Proof. split; vm_compute; reflexivity. Qed.

Lemma neuron_names_distinct_and_indexed_witness :
  get_neuron_names Toy.inspector "visual.conv1" = Ok ["channel_0"; "channel_1"] /\
  NoDup ["channel_0"; "channel_1"] /\
  exists layer,
    get_layer Toy.inspector "visual.conv1" = Some layer /\
    "channel_1" = name_prefix layer +:+ str_of_nat 1.
Proof.
  assert (H : get_neuron_names Toy.inspector "visual.conv1" = Ok ["channel_0"; "channel_1"]).
  { vm_compute. reflexivity. }
  destruct (neuron_names_distinct_and_indexed Toy.inspector "visual.conv1" _ H) as [Hd Hi].
  split; [exact H|]. split; [exact Hd|].
  apply (Hi 1%nat "channel_1"). reflexivity.
Defined.

Lemma layer_names_sorted_and_prefixed_witness :
  LayerInspector_init (net Toy.ready) "ViT-B/32" = Ok Toy.inspector /\
  Sorted str_le (get_layer_names Toy.inspector) /\ NoDup (get_layer_names Toy.inspector).
Proof.
  split; [exact toy_directory|].
  destruct (layer_names_sorted_and_prefixed (net Toy.ready) "ViT-B/32" Toy.inspector
              toy_directory) as (Hs & Hn & _).
  split; assumption.
Defined.

Lemma negative_unit_index_wraps_witness :
  get_activation_value
    (mkHook (Some (-1)) (Some (PyTensor (mkTensor [2; 3]%nat [1; 5; 2; 3; 7; 4]%Q false)))) =
  get_activation_value
    (mkHook (Some 2) (Some (PyTensor (mkTensor [2; 3]%nat [1; 5; 2; 3; 7; 4]%Q false)))).
Proof.
  apply (negative_unit_index_wraps (mkTensor [2; 3]%nat [1; 5; 2; 3; 7; 4]%Q false) (-1)).
  simpl. lia.
Defined.

Lemma quiet_callback_is_observational_witness :
  @generate_image Toy.torch Toy.visualizer Toy.ready "visual.pre" (Some 0) 2 1 (1 # 100) 10
    (Some 42) (Some print_progress) =
  @generate_image Toy.torch Toy.visualizer Toy.ready "visual.pre" (Some 0) 2 1 (1 # 100) 10
    (Some 42) None.
Proof.
  apply (@quiet_callback_is_observational Toy.torch). intros i a _ _. reflexivity.
Defined.

Lemma completed_run_caps_green_and_blue_witness :
  (generate_image Toy.visualizer Toy.ready "visual.pre"
     (Some 0) 2 1 (1 # 100) 10 (Some 42) None).1
    = Ok (mkImage 2 2 [122; 82; 33; 156; 116; 68; 190; 149; 103; 53; 182; 138]) /\
  149 <= channel_ceiling 1.
Proof.
  split.
  - vm_compute. reflexivity.
  - apply (@completed_run_caps_green_and_blue Toy.torch Toy.visualizer Toy.ready "visual.pre"
             (Some 0) 2 1 (1 # 100) 10 (Some 42) None
             (mkImage 2 2 [122; 82; 33; 156; 116; 68; 190; 149; 103; 53; 182; 138])
             ltac:(lia) ltac:(vm_compute; reflexivity) 1%nat 0%nat 1%nat 149).
    + simpl. lia.
    + simpl. lia.
    + lia.
    + reflexivity.
Defined.

Lemma flat_image_has_no_total_variation_witness :
  (_total_variation (mkTensor [1; 2; 2; 2]%nat [3; 3; 3; 3; -1; -1; -1; -1]%Q true) == 0)%Q.
Proof.
  apply (flat_image_has_no_total_variation
           (mkTensor [1; 2; 2; 2]%nat [3; 3; 3; 3; -1; -1; -1; -1]%Q true) 1 2 2 2);
    [reflexivity | simpl; lia | lia | lia |].
  intros n i j Hn Hi Hj. cbn [shape nth] in *.
  destruct n as [|[|n]]; [| |simpl in Hn; lia];
    (destruct i as [|[|i]]; [| |lia]); (destruct j as [|[|j]]; [| |lia]); reflexivity.
Defined.



Lemma selected_name_gives_its_index_witness :
  neuron_options ["channel_0"; "channel_1"] !! "channel_1" = Some 1%nat.
Proof.
  apply (selected_name_gives_its_index Toy.inspector "visual.conv1").
  - vm_compute. reflexivity.
  - reflexivity.
Defined.

Lemma progress_bar_cells_witness :
  length (progress_bar 40 150 1000) = 40%nat.
Proof.
  apply (progress_bar_cells 40 150 1000); lia.
Defined.

Lemma cli_never_reports_layer_not_found_witness :
  (@cli_main Toy.torch (Toy.args 0) Toy.ready "cpu").1
    <> Ok (GenerationFailed (ValueError (layer_not_found "visual.fc"))).
Proof.
  apply (@cli_never_reports_layer_not_found Toy.torch (Toy.args 0) Toy.ready "cpu"
           toy_network_wf "visual.fc").
  reflexivity.
Defined.

Lemma cli_index_below_range_crashes_witness :
  (@cli_main Toy.torch (Toy.args (-4)) Toy.ready "cpu").1 = Raise IndexError.
Proof.
  rewrite (@cli_index_below_range_crashes Toy.torch (Toy.args (-4)) Toy.ready "cpu"
             Toy.inspector "visual.fc" ["neuron_0"; "neuron_1"; "neuron_2"] (-4)).
  - reflexivity.
  - exact toy_directory.
  - reflexivity.
  - reflexivity.
  - reflexivity.
  - discriminate.
  - apply get_layer_names_elem. vm_compute. eauto.
  - vm_compute. reflexivity.
  - reflexivity.
  - simpl. lia.
Defined.

Lemma api_generate_answers_500_witness :
  exists e w',
    @generate_visualization Toy.torch Toy.visualizer Toy.ready "visual.conv1" 0 64 100
      (1 # 100) 10 42 = (HTTPException 500 e, w').
Proof.
  apply (@api_generate_answers_500 Toy.torch).
  intros target m cls tr x trace Hres Hk Hf.
  vm_compute in Hres. injection Hres as <-. injection Hk as <- _ _.
  rewrite (toy_forward_trace Toy.ready x trace eq_refl Hf).
  not_in_list.
Defined.

Lemma batch_records_every_selected_unit_witness :
  exists st indices,
    @batch_generate Toy.torch Toy.ready "cpu" ∅ "visual.fc" (0, 64, 2) 2 1 (1 # 100) 10 42 true
      = Ok (Some st) /\
    py_range3 0 (Z.min 64 3) 2 = Ok indices /\
    dom (b_neurons st) = list_to_set indices.
Proof.
  destruct (@batch_records_every_selected_unit Toy.torch Toy.ready "cpu" ∅ "visual.fc"
              0 64 2 2 1 (1 # 100) 10 42 true Toy.inspector
              ["neuron_0"; "neuron_1"; "neuron_2"])
    as (st & indices & H1 & H2 & _ & H3 & _).
  - exact toy_directory.
  - apply get_layer_names_elem. vm_compute. eauto.
  - vm_compute. reflexivity.
  - lia.
  - lia.
  - exists st, indices. repeat split; assumption.
Defined.

Lemma layer_info_of_listed_layers_witness :
  get_layer_info (fun _ => "Linear") (fun _ => 9) Toy.inspector "visual.fc" !! "name"
    = Some (InfoStr "visual.fc").
Proof.
  destruct (layer_info_of_listed_layers (fun _ => "Linear") (fun _ => 9) (net Toy.ready)
              "ViT-B/32" Toy.inspector "visual.fc" toy_network_wf toy_directory)
    as (_ & H & _).
  apply H. apply get_layer_names_elem. vm_compute. eauto.
Defined.

Lemma listed_layers_are_frozen_witness :
  exists attrs,
    get_layer Toy.inspector "visual.fc" = Some (Obj (KModule 4 Linear false) attrs) /\
    forall p s rg dev pattrs,
      lookup_attr p attrs = Some (Obj (KParam s rg dev) pattrs) -> rg = false /\ dev = "cpu".
Proof.
  eexists. split; [vm_compute; reflexivity|].
  eapply (@listed_layers_are_frozen Toy.torch Toy.world "cpu" "ViT-B/32" Toy.inspector
            "visual.fc" 4%nat Linear false).
  - reflexivity.
  - exact toy_directory.
  - vm_compute. reflexivity.
Defined.
